(** * A first-fit [sbrk] allocator: shallow embedding of [allocator.c]

    The program keeps a singly linked list of block headers inside one
    arena that it grows and shrinks with [sbrk].  The embedding follows
    the C text function by function:

    - [size_t] values and addresses are 64-bit quantities, modelled as
      [Z] with the wrap-around written out ([wrap]);
    - memory is a store of headers keyed by address plus a store of
      payload bytes keyed by address;
    - the globals [head] and [tail], the program break and the two
      stores form the explicit [state] every operation threads through;
    - the two [while] loops walk a pointer structure that may be
      cyclic, so they take fuel; a result is [Done], [Fault] (a header
      is read where none was ever written) or [Timeout] (fuel ran out).

    The mutex only serialises whole operations; the model is the
    sequential semantics of one operation at a time.

    The header store holds one record per address and the payload
    bytes live in a store of their own.  That is exact as long as no
    header shares bytes with another header or with a payload, which
    is so in every well-formed state ([wf]: the blocks of the list
    tile the arena) and when two headers sit at one and the same
    address.  Statements about what a write leaves intact, and about
    [memset] and [memcpy], are therefore made for well-formed states
    and sizes whose total does not wrap. *)

From Stdlib Require Import ZArith Lia List Bool.
From stdpp Require Import gmap list.

Open Scope Z_scope.

(** ** Machine arithmetic (LP64) *)

Definition wordsize : Z := 64.
Definition modulus : Z := 2 ^ wordsize.
Definition half_modulus : Z := 2 ^ (wordsize - 1).

(** Unsigned 64-bit wrap-around of [size_t] and pointer arithmetic. *)
Definition wrap (z : Z) : Z := z mod modulus.

(** Conversion of a [size_t] bit pattern to [intptr_t], as happens to
    the argument of [sbrk]. *)
Definition to_signed (z : Z) : Z :=
  if z <? half_modulus then z else z - modulus.

Definition NULL : Z := 0.

(** [(void* ) -1], the failure value of [sbrk]. *)
Definition SBRK_FAILED : Z := modulus - 1.

(** [sizeof(struct header_t)]: an 8-byte [size_t], a 4-byte [unsigned]
    padded to 8, and an 8-byte pointer. *)
Definition HEADER_SIZE : Z := 24.

(** [(void* )(header + 1)]: the address right after a header, and
    [(struct header_t* )block - 1]: the header in front of a block. *)
Definition payload (header : Z) : Z := wrap (header + HEADER_SIZE).
Definition header_of (block : Z) : Z := wrap (block - HEADER_SIZE).

(** ** Data *)

(** [struct header_t].  [is_free] only ever holds 0 or 1 and is only
    tested for truth, hence a [bool]. *)
Record header_t : Type := mk_header {
  size : Z;
  is_free : bool;
  next : Z
}.

Definition set_is_free (b : bool) (h : header_t) : header_t :=
  {| size := size h; is_free := b; next := next h |}.

Definition set_next (n : Z) (h : header_t) : header_t :=
  {| size := size h; is_free := is_free h; next := n |}.

(** The globals [head] and [tail], the arena ([min_brk] is the initial
    program break, [brk] the current one, [max_brk] the highest break
    the host grants) and memory. *)
Record state : Type := mk_state {
  head : Z;
  tail : Z;
  min_brk : Z;
  brk : Z;
  max_brk : Z;
  hdrs : gmap Z header_t;
  bytes : gmap Z Z
}.

Definition set_head (a : Z) (s : state) : state :=
  {| head := a; tail := tail s; min_brk := min_brk s; brk := brk s;
     max_brk := max_brk s; hdrs := hdrs s; bytes := bytes s |}.

Definition set_tail (a : Z) (s : state) : state :=
  {| head := head s; tail := a; min_brk := min_brk s; brk := brk s;
     max_brk := max_brk s; hdrs := hdrs s; bytes := bytes s |}.

Definition set_brk (b : Z) (s : state) : state :=
  {| head := head s; tail := tail s; min_brk := min_brk s; brk := b;
     max_brk := max_brk s; hdrs := hdrs s; bytes := bytes s |}.

Definition set_hdrs (m : gmap Z header_t) (s : state) : state :=
  {| head := head s; tail := tail s; min_brk := min_brk s; brk := brk s;
     max_brk := max_brk s; hdrs := m; bytes := bytes s |}.

Definition set_bytes (m : gmap Z Z) (s : state) : state :=
  {| head := head s; tail := tail s; min_brk := min_brk s; brk := brk s;
     max_brk := max_brk s; hdrs := hdrs s; bytes := m |}.

(** A process that has not allocated yet. *)
Definition init_state (lo hi : Z) : state :=
  {| head := NULL; tail := NULL; min_brk := lo; brk := lo; max_brk := hi;
     hdrs := ∅; bytes := ∅ |}.

(** ** Results *)

Inductive outcome (A : Type) : Type :=
  | Done (a : A)
  | Fault
  | Timeout.
Arguments Done {A} a.
Arguments Fault {A}.
Arguments Timeout {A}.

#[global] Instance outcome_bind : MBind outcome := fun A B k o =>
  match o with
  | Done a => k a
  | Fault => Fault
  | Timeout => Timeout
  end.

(** Reading a header field through a pointer. *)
Definition load (a : Z) (s : state) : outcome header_t :=
  match hdrs s !! a with
  | Some h => Done h
  | None => Fault
  end.

(** Writing a whole header, and writing one field of a header that is
    already there. *)
Definition store (a : Z) (h : header_t) (s : state) : state :=
  set_hdrs (<[a := h]> (hdrs s)) s.

Definition update (a : Z) (f : header_t -> header_t) (s : state) : outcome state :=
  h ← load a s; Done (store a (f h) s).

(** ** The host: [sbrk], [memset], [memcpy] *)

(** [sbrk(increment)]: on success the break moves by the signed
    increment and the previous break is returned; the host refuses to
    move the break below its initial value or above [max_brk].  (A
    host may instead report success for a decrease it did not carry
    out; the two differ only for a negative increment below the
    initial break, which takes a wrapped size to produce.) *)
Definition sbrk (increment : Z) (s : state) : Z * state :=
  let new_brk := brk s + to_signed increment in
  if (min_brk s <=? new_brk) && (new_brk <=? max_brk s)
  then (brk s, set_brk new_brk s)
  else (SBRK_FAILED, s).

Fixpoint memset (n : nat) (p c : Z) (m : gmap Z Z) : gmap Z Z :=
  match n with
  | O => m
  | S k => memset k (p + 1) c (<[p := c]> m)
  end.

Fixpoint memcpy (n : nat) (dst src : Z) (m : gmap Z Z) : gmap Z Z :=
  match n with
  | O => m
  | S k =>
      memcpy k (dst + 1) (src + 1)
        (match m !! src with
         | Some b => <[dst := b]> m
         | None => delete dst m
         end)
  end.

(** ** The allocator *)

(** The test of [get_free_block]:
    [curr->is_free && curr->size >= required_size]. *)
Definition fits (required_size : Z) (h : header_t) : bool :=
  is_free h && (required_size <=? size h).

(** The loop of [get_free_block], started at [curr]. *)
Fixpoint get_free_block_from (fuel : nat) (m : gmap Z header_t)
    (curr required_size : Z) : outcome Z :=
  if curr =? NULL then Done NULL else
  match fuel with
  | O => Timeout
  | S fuel' =>
      match m !! curr with
      | None => Fault
      | Some h =>
          if fits required_size h then Done curr
          else get_free_block_from fuel' m (next h) required_size
      end
  end.

Definition get_free_block (fuel : nat) (required_size : Z) (s : state) : outcome Z :=
  get_free_block_from fuel (hdrs s) (head s) required_size.

(** The part of [mmalloc] after a failed search: grow the arena and
    append a fresh header. *)
Definition mmalloc_grow (sz : Z) (s : state) : outcome (Z * state) :=
  let total_size := wrap (HEADER_SIZE + sz) in
  let '(block, s1) := sbrk total_size s in
  if block =? SBRK_FAILED then Done (NULL, s1) else
  let header := block in
  let s2 := store header {| size := sz; is_free := false; next := NULL |} s1 in
  let s3 := if head s2 =? NULL then set_head header s2 else s2 in
  s4 ← (if tail s3 =? NULL then Done s3
        else update (tail s3) (set_next header) s3);
  let s5 := set_tail header s4 in
  Done (payload header, s5).

Definition mmalloc (fuel : nat) (sz : Z) (s : state) : outcome (Z * state) :=
  if sz =? 0 then Done (NULL, s) else
  header ← get_free_block fuel sz s;
  if negb (header =? NULL) then
    s1 ← update header (set_is_free false) s;
    Done (payload header, s1)
  else mmalloc_grow sz s.

(** The loop of [ffree] that unlinks the tail, started at [curr]. *)
Fixpoint ffree_unlink (fuel : nat) (curr : Z) (s : state) : outcome state :=
  if curr =? NULL then Done s else
  match fuel with
  | O => Timeout
  | S fuel' =>
      h ← load curr s;
      s1 ← (if next h =? tail s
            then s' ← update curr (set_next NULL) s; Done (set_tail curr s')
            else Done s);
      h1 ← load curr s1;
      ffree_unlink fuel' (next h1) s1
  end.

Definition ffree (fuel : nat) (block : Z) (s : state) : outcome state :=
  if block =? NULL then Done s else
  let header := header_of block in
  let programbreak := fst (sbrk 0 s) in
  h ← load header s;
  if wrap (block + size h) =? programbreak then
    s1 ← (if head s =? tail s then Done (set_tail NULL (set_head NULL s))
          else ffree_unlink fuel (head s) s);
    h1 ← load header s1;
    Done (snd (sbrk (wrap (0 - HEADER_SIZE - size h1)) s1))
  else
    update header (set_is_free true) s.

(** The overflow test of [ccalloc]: [nsize != size / num]. *)
Definition mul_overflows (num nsize : Z) : bool :=
  negb (nsize =? wrap (num * nsize) / num).

Definition ccalloc (fuel : nat) (num nsize : Z) (s : state) : outcome (Z * state) :=
  if (num =? 0) || (nsize =? 0) then Done (NULL, s) else
  let sz := wrap (num * nsize) in
  if mul_overflows num nsize then Done (NULL, s) else
  '(block, s1) ← mmalloc fuel sz s;
  if block =? NULL then Done (NULL, s1) else
  Done (block, set_bytes (memset (Z.to_nat sz) block 0 (bytes s1)) s1).

Definition rrealloc (fuel : nat) (block sz : Z) (s : state) : outcome (Z * state) :=
  if (block =? NULL) || (sz =? 0) then mmalloc fuel sz s else
  let header := header_of block in
  h ← load header s;
  if sz <=? size h then Done (block, s) else
  '(ret, s1) ← mmalloc fuel sz s;
  if negb (ret =? NULL) then
    h1 ← load header s1;
    let s2 := set_bytes (memcpy (Z.to_nat (size h1)) ret block (bytes s1)) s1 in
    s3 ← ffree fuel block s2;
    Done (ret, s3)
  else Done (ret, s1).

(** ** Well-formed states *)

(** [chain m p l q]: following [next] from the pointer [p] visits the
    headers at the addresses [l], in that order, and arrives at [q]. *)
Fixpoint chain (m : gmap Z header_t) (p : Z) (l : list Z) (q : Z) : Prop :=
  match l with
  | [] => p = q
  | x :: l' =>
      p = x ∧ x ≠ NULL ∧ ∃ h, m !! x = Some h ∧ chain m (next h) l' q
  end.

(** [seg m p a l q e]: a chain from [p] to [q] through [l] whose blocks
    lie back to back in memory, the first header at address [a] and
    the last payload ending at [e]; every block has a positive size. *)
Fixpoint seg (m : gmap Z header_t) (p a : Z) (l : list Z) (q e : Z) : Prop :=
  match l with
  | [] => p = q ∧ a = e
  | x :: l' =>
      p = x ∧ a = x ∧
      ∃ h, m !! x = Some h ∧ 0 < size h ∧
           seg m (next h) (x + HEADER_SIZE + size h) l' q e
  end.

(** The state a run of the allocator maintains as long as no size
    computation wraps: the list from [head] is [l], it ends at [NULL],
    [tail] is its last node, and its blocks tile the arena from the
    initial break to the current one.  Arena addresses are positive
    and below [2^63]. *)
Record wf (s : state) (l : list Z) : Prop := mk_wf {
  wf_min : 0 < min_brk s;
  wf_max : max_brk s < half_modulus;
  wf_brk : brk s <= max_brk s;
  wf_seg : seg (hdrs s) (head s) (min_brk s) l NULL (brk s);
  wf_tail : tail s = default NULL (last l)
}.


(** The [n] bytes at [p] and the [k] bytes at [q] do not overlap. *)
Definition disjoint_regions (p n q k : Z) : Prop :=
  p + n <= q ∨ q + k <= p.

(** [no_fit m sz l]: no header of [l] passes the test of
    [get_free_block] for a request of [sz] bytes. *)
Abbreviation no_fit m sz :=
  (Forall (λ y, ∀ hy : header_t, m !! y = Some hy → fits sz hy = false)).

(** ** Scripts and sample states *)

(** A call of one of the four public operations. *)
Inductive op : Type :=
  | Mmalloc (sz : Z)
  | Ffree (block : Z)
  | Ccalloc (num nsize : Z)
  | Rrealloc (block sz : Z).

(** One call: the pointer it returns ([NULL] for [ffree]) and the
    state it leaves. *)
Definition step (fuel : nat) (o : op) (s : state) : outcome (Z * state) :=
  match o with
  | Mmalloc sz => mmalloc fuel sz s
  | Ffree block => s' ← ffree fuel block s; Done (NULL, s')
  | Ccalloc num nsize => ccalloc fuel num nsize s
  | Rrealloc block sz => rrealloc fuel block sz s
  end.

(** A sequence of calls: the pointers returned, in order, and the
    final state. *)
Fixpoint run (fuel : nat) (ops : list op) (s : state) : outcome (list Z * state) :=
  match ops with
  | [] => Done ([], s)
  | o :: ops' =>
      '(p, s1) ← step fuel o s;
      '(ps, s2) ← run fuel ops' s1;
      Done (p :: ps, s2)
  end.

(** A process whose break starts at 4096 and may rise to 1 MiB. *)
Definition fresh_process : state := init_state 4096 1048576.

(** The state after [mmalloc(4)], [mmalloc(8)], [mmalloc(1)] in
    [fresh_process]: blocks A, B, C of the driver. *)
Definition abc_state : state :=
  {| head := 4096; tail := 4156; min_brk := 4096; brk := 4181;
     max_brk := 1048576;
     hdrs := <[4096 := {| size := 4; is_free := false; next := 4124 |}]>
             (<[4124 := {| size := 8; is_free := false; next := 4156 |}]>
             (<[4156 := {| size := 1; is_free := false; next := NULL |}]> ∅));
     bytes := ∅ |}.

(** [abc_state] after A has been released. *)
Definition bc_state : state :=
  store 4096 {| size := 4; is_free := true; next := 4124 |} abc_state.

(** One block of 4 bytes in an arena that cannot grow any more. *)
Definition full_state : state :=
  {| head := 4096; tail := 4096; min_brk := 4096; brk := 4124;
     max_brk := 4124;
     hdrs := <[4096 := {| size := 4; is_free := false; next := NULL |}]> ∅;
     bytes := <[4120 := 36]> ∅ |}.

(** The state after [mmalloc(8)] and [mmalloc(2^64 - 24)] in
    [fresh_process].  The second request makes
    [sizeof(struct header_t) + size] wrap to 0, so [sbrk(0)] leaves the
    break where it was and the second header sits at the break. *)
Definition lapped_state : state :=
  {| head := 4096; tail := 4128; min_brk := 4096; brk := 4128;
     max_brk := 1048576;
     hdrs := <[4096 := {| size := 8; is_free := false; next := 4128 |}]>
             (<[4128 := {| size := modulus - 24; is_free := false;
                           next := NULL |}]> ∅);
     bytes := ∅ |}.

(** [lapped_state] after one more [mmalloc(1)]: the new header landed
    on the old tail. *)
Definition cyclic_state : state :=
  {| head := 4096; tail := 4128; min_brk := 4096; brk := 4153;
     max_brk := 1048576;
     hdrs := <[4096 := {| size := 8; is_free := false; next := 4128 |}]>
             (<[4128 := {| size := 1; is_free := false; next := 4128 |}]> ∅);
     bytes := ∅ |}.

(** The [n] bytes at [p] lie inside the arena of [s]. *)
Definition in_arena (s : state) (p n : Z) : Prop :=
  min_brk s <= p ∧ p + n <= brk s.

(** Calls whose size computations do not wrap and whose pointers are
    [NULL] or name a block of the list [l]. *)
Definition valid_op (l : list Z) (o : op) : Prop :=
  match o with
  | Mmalloc sz => 0 <= sz ∧ HEADER_SIZE + sz < half_modulus
  | Ffree block => block = NULL ∨ ∃ x, x ∈ l ∧ block = payload x
  | Ccalloc num nsize =>
      0 <= num < modulus ∧ 0 <= nsize < modulus ∧
      (num * nsize < modulus → HEADER_SIZE + num * nsize < half_modulus)
  | Rrealloc block sz =>
      0 <= sz ∧ HEADER_SIZE + sz < half_modulus ∧
      (block = NULL ∨ ∃ x, x ∈ l ∧ block = payload x)
  end.

(** The states a process reaches from its start by valid calls, each
    run with enough fuel to walk the list. *)
Inductive safe_run : state → Prop :=
  | safe_init lo hi :
      0 < lo → lo <= hi → hi < half_modulus → safe_run (init_state lo hi)
  | safe_step s l fuel o p s' :
      safe_run s → wf s l → valid_op l o → (length l <= fuel)%nat →
      step fuel o s = Done (p, s') → safe_run s'.

(** ** The debug dump *)

(** What [print_mem_list] writes: first the line with [head] and
    [tail], then one line per header with its address, size, flag and
    successor.  The lines are kept as the values handed to [printf];
    the fixed text around them is left out. *)
Inductive line : Type :=
  | HeadTail (hd tl : Z)
  | Block (addr sz : Z) (free : bool) (nxt : Z).

(** The loop of [print_mem_list], started at [curr]. *)
Fixpoint print_mem_list_from (fuel : nat) (m : gmap Z header_t) (curr : Z)
    : outcome (list line) :=
  if curr =? NULL then Done [] else
  match fuel with
  | O => Timeout
  | S fuel' =>
      match m !! curr with
      | None => Fault
      | Some h =>
          rest ← print_mem_list_from fuel' m (next h);
          Done (Block curr (size h) (is_free h) (next h) :: rest)
      end
  end.

Definition print_mem_list (fuel : nat) (s : state) : outcome (list line) :=
  rest ← print_mem_list_from fuel (hdrs s) (head s);
  Done (HeadTail (head s) (tail s) :: rest).

(** The line [print_mem_list] writes for the header at [x]. *)
Definition line_of (m : gmap Z header_t) (x : Z) (ln : line) : Prop :=
  ∃ h, m !! x = Some h ∧ ln = Block x (size h) (is_free h) (next h).

(** The states after [mmalloc(4)] and after [mmalloc(4)], [mmalloc(8)]
    in [fresh_process]. *)
Definition a_state : state :=
  {| head := 4096; tail := 4096; min_brk := 4096; brk := 4124;
     max_brk := 1048576;
     hdrs := <[4096 := {| size := 4; is_free := false; next := NULL |}]> ∅;
     bytes := ∅ |}.

Definition ab_state : state :=
  {| head := 4096; tail := 4124; min_brk := 4096; brk := 4156;
     max_brk := 1048576;
     hdrs := <[4096 := {| size := 4; is_free := false; next := 4124 |}]>
             (<[4124 := {| size := 8; is_free := false; next := NULL |}]> ∅);
     bytes := ∅ |}.

(** The bytes of the arena a block takes: its header and its payload. *)
Definition extent (m : gmap Z header_t) (x : Z) : Z :=
  match m !! x with
  | Some h => HEADER_SIZE + size h
  | None => 0
  end.

(** The bytes all blocks of a list take together. *)
Definition extents (m : gmap Z header_t) (l : list Z) : Z :=
  foldr (λ x acc, extent m x + acc) 0 l.

(** ** Arithmetic *)

Lemma modulus_eq : modulus = 18446744073709551616.
Proof. reflexivity. Qed.

Lemma half_modulus_eq : half_modulus = 9223372036854775808.
Proof. reflexivity. Qed.

Lemma wrap_small z : 0 <= z < modulus → wrap z = z.
Proof. intros H. unfold wrap. by apply Z.mod_small. Qed.

Lemma wrap_range z : 0 <= wrap z < modulus.
Proof. unfold wrap. apply Z.mod_pos_bound. by rewrite modulus_eq. Qed.

Lemma wrap_neg z : 0 < z <= modulus → wrap (0 - z) = modulus - z.
Proof.
  intros H. unfold wrap.
  replace (0 - z) with (modulus - z + (-1) * modulus) by lia.
  rewrite Z.mod_add by (rewrite modulus_eq; lia).
  apply Z.mod_small. lia.
Qed.

Lemma to_signed_small z : 0 <= z < half_modulus → to_signed z = z.
Proof.
  intros H. unfold to_signed.
  destruct (Z.ltb_spec z half_modulus); lia.
Qed.

Lemma to_signed_neg z :
  0 < z <= half_modulus → to_signed (wrap (0 - z)) = - z.
Proof.
  intros H. rewrite wrap_neg by (rewrite modulus_eq, half_modulus_eq in *; lia).
  unfold to_signed.
  destruct (Z.ltb_spec (modulus - z) half_modulus);
    rewrite modulus_eq, half_modulus_eq in *; lia.
Qed.

Lemma payload_small x :
  0 <= x < half_modulus → payload x = x + HEADER_SIZE.
Proof.
  intros H. unfold payload, HEADER_SIZE. apply wrap_small.
  rewrite modulus_eq, half_modulus_eq in *. lia.
Qed.

Lemma payload_eqb_NULL x :
  0 <= x < half_modulus → (payload x =? NULL) = false.
Proof.
  intros H. rewrite payload_small by done. apply Z.eqb_neq.
  unfold HEADER_SIZE, NULL. lia.
Qed.

Lemma header_of_payload x :
  0 <= x < half_modulus → header_of (payload x) = x.
Proof.
  intros H. rewrite payload_small by done.
  unfold header_of. replace (x + HEADER_SIZE - HEADER_SIZE) with x by lia.
  apply wrap_small. rewrite modulus_eq, half_modulus_eq in *. lia.
Qed.

(** ** The host *)

Lemma sbrk_zero s :
  min_brk s <= brk s <= max_brk s → sbrk 0 s = (brk s, s).
Proof.
  intros H. unfold sbrk. rewrite to_signed_small by (rewrite half_modulus_eq; lia).
  rewrite Z.add_0_r.
  destruct (Z.leb_spec (min_brk s) (brk s)); [|lia].
  destruct (Z.leb_spec (brk s) (max_brk s)); [|lia].
  simpl. by destruct s.
Qed.

Lemma sbrk_grow n s :
  0 <= n < half_modulus → min_brk s <= brk s → brk s + n <= max_brk s →
  sbrk n s = (brk s, set_brk (brk s + n) s).
Proof.
  intros Hn Hlo Hhi. unfold sbrk. rewrite to_signed_small by done.
  destruct (Z.leb_spec (min_brk s) (brk s + n)); [|lia].
  destruct (Z.leb_spec (brk s + n) (max_brk s)); [|lia]. done.
Qed.

Lemma sbrk_refuse n s :
  0 <= n < half_modulus → max_brk s < brk s + n →
  sbrk n s = (SBRK_FAILED, s).
Proof.
  intros Hn Hhi. unfold sbrk. rewrite to_signed_small by done.
  destruct (Z.leb_spec (brk s + n) (max_brk s)); [lia|].
  by rewrite andb_false_r.
Qed.

Lemma sbrk_shrink n s :
  0 < n <= half_modulus → min_brk s <= brk s - n → brk s <= max_brk s →
  sbrk (wrap (0 - n)) s = (brk s, set_brk (brk s - n) s).
Proof.
  intros Hn Hlo Hhi. unfold sbrk. rewrite to_signed_neg by done.
  replace (brk s + - n) with (brk s - n) by lia.
  destruct (Z.leb_spec (min_brk s) (brk s - n)); [|lia].
  destruct (Z.leb_spec (brk s - n) (max_brk s)); [|lia]. done.
Qed.

(** [sbrk] either fails and leaves the state alone, or returns the old
    break and moves only the break. *)
Lemma sbrk_cases n s :
  sbrk n s = (SBRK_FAILED, s) ∨
  ∃ b, sbrk n s = (brk s, set_brk b s) ∧ min_brk s <= b <= max_brk s.
Proof.
  unfold sbrk.
  destruct (Z.leb_spec (min_brk s) (brk s + to_signed n));
    destruct (Z.leb_spec (brk s + to_signed n) (max_brk s)); simpl; eauto.
Qed.

(** ** Chains and segments *)

Lemma chain_app m p l1 l2 q :
  chain m p (l1 ++ l2) q ↔ ∃ r, chain m p l1 r ∧ chain m r l2 q.
Proof.
  revert p. induction l1 as [|x l1 IH]; intros p; simpl.
  - split; [eauto | by intros (r & -> & H)].
  - split.
    + intros (-> & Hx & h & Hh & Hc). apply IH in Hc as (r & H1 & H2).
      exists r. eauto 10.
    + intros (r & (-> & Hx & h & Hh & H1) & H2).
      repeat split; [done|]. exists h. split; [done|]. apply IH. eauto.
Qed.

(** A chain only depends on the [next] fields of its own nodes. *)
Lemma chain_frame m m' p l q :
  (∀ x h, x ∈ l → m !! x = Some h →
          ∃ h', m' !! x = Some h' ∧ next h' = next h) →
  chain m p l q → chain m' p l q.
Proof.
  revert p. induction l as [|x l IH]; intros p Hf; simpl; [done|].
  intros (-> & Hx & h & Hh & Hc).
  destruct (Hf x h) as (h' & Hh' & Hn); [left | done |].
  repeat split; [done|]. exists h'. split; [done|]. rewrite Hn.
  apply IH; [|done]. intros y hy Hy. apply Hf. by right.
Qed.

Lemma seg_app m p a l1 l2 q e :
  seg m p a (l1 ++ l2) q e ↔
  ∃ r c, seg m p a l1 r c ∧ seg m r c l2 q e.
Proof.
  revert p a. induction l1 as [|x l1 IH]; intros p a; simpl.
  - split; [eauto | by intros (r & c & (-> & ->) & H)].
  - split.
    + intros (-> & -> & h & Hh & Hs & Hc).
      apply IH in Hc as (r & c & H1 & H2). exists r, c. eauto 10.
    + intros (r & c & (-> & -> & h & Hh & Hs & H1) & H2).
      repeat split. exists h. repeat split; [done..|]. apply IH. eauto.
Qed.

Lemma seg_frame m m' p a l q e :
  (∀ x h, x ∈ l → m !! x = Some h →
          ∃ h', m' !! x = Some h' ∧ next h' = next h ∧ size h' = size h) →
  seg m p a l q e → seg m' p a l q e.
Proof.
  revert p a. induction l as [|x l IH]; intros p a Hf; simpl; [done|].
  intros (-> & -> & h & Hh & Hs & Hc).
  destruct (Hf x h) as (h' & Hh' & Hn & Hz); [left | done |].
  repeat split. exists h'. rewrite Hn, Hz. repeat split; [done..|].
  apply IH; [|done]. intros y hy Hy. apply Hf. by right.
Qed.

(** Every block of a segment lies inside the segment's address range. *)
Lemma seg_bounds m p a l q e :
  seg m p a l q e →
  a <= e ∧
  ∀ x, x ∈ l →
    ∃ h, m !! x = Some h ∧ 0 < size h ∧ a <= x ∧ x + HEADER_SIZE + size h <= e.
Proof.
  revert p a. induction l as [|x l IH]; intros p a; simpl.
  - intros (_ & ->). split; [lia|]. intros x Hx. by apply elem_of_nil in Hx.
  - intros (-> & -> & h & Hh & Hs & Hc).
    destruct (IH _ _ Hc) as (Hle & Hall). unfold HEADER_SIZE in *.
    split; [lia|]. intros y Hy. apply elem_of_cons in Hy as [->|Hy].
    + exists h. repeat split; [done|lia..].
    + destruct (Hall y Hy) as (hy & ? & ? & ? & ?).
      exists hy. repeat split; [done|lia..].
Qed.

Lemma seg_le m p a l q e : seg m p a l q e → a <= e.
Proof. intros H. by apply seg_bounds in H as [? _]. Qed.

(** An address at or past the end of a segment is not one of its nodes. *)
Lemma seg_fresh m p a l q e b :
  seg m p a l q e → e <= b → b ∉ l.
Proof.
  intros H Hb Hin. apply seg_bounds in H as (_ & Hall).
  destruct (Hall b Hin) as (h & _ & ? & _ & ?). unfold HEADER_SIZE in *. lia.
Qed.

Lemma seg_chain m p a l q e :
  0 < a → seg m p a l q e → chain m p l q.
Proof.
  revert p a. induction l as [|x l IH]; intros p a Ha; simpl.
  - by intros (-> & _).
  - intros (-> & -> & h & Hh & Hs & Hc). unfold NULL.
    repeat split; [lia|]. exists h. split; [done|].
    eapply IH; [|done]. unfold HEADER_SIZE. lia.
Qed.

(** The last block of a segment, seen from the end. *)
Lemma seg_snoc m p a l x q e :
  seg m p a (l ++ [x]) q e ↔
  ∃ h, seg m p a l x x ∧ m !! x = Some h ∧ 0 < size h ∧
       next h = q ∧ x + HEADER_SIZE + size h = e.
Proof.
  rewrite seg_app. simpl. split.
  - intros (r & c & H1 & -> & -> & h & Hh & Hs & <- & <-). by exists h.
  - intros (h & H1 & Hh & Hs & <- & <-). exists x, x. split; [done|].
    repeat split. by exists h.
Qed.

(** Two different blocks of a segment have disjoint extents. *)
Lemma seg_disjoint m p a l q e x y hx hy :
  seg m p a l q e → x ∈ l → y ∈ l → x ≠ y →
  m !! x = Some hx → m !! y = Some hy →
  disjoint_regions x (HEADER_SIZE + size hx) y (HEADER_SIZE + size hy).
Proof.
  revert p a. induction l as [|z l IH]; intros p a; simpl.
  - intros _ Hx. by apply elem_of_nil in Hx.
  - intros (-> & -> & h & Hh & Hs & Hc) Hx Hy Hne Hhx Hhy.
    apply elem_of_cons in Hx as [->|Hx]; apply elem_of_cons in Hy as [->|Hy].
    + done.
    + apply seg_bounds in Hc as (_ & Hall).
      destruct (Hall y Hy) as (h' & ? & ? & ? & ?). left. simplify_eq. lia.
    + apply seg_bounds in Hc as (_ & Hall).
      destruct (Hall x Hx) as (h' & ? & ? & ? & ?). right. simplify_eq. lia.
    + by eapply IH.
Qed.

(** Only the last block of a segment ends where the segment ends. *)
Lemma seg_end_is_last m p a l q e x h :
  seg m p a l q e → x ∈ l → m !! x = Some h →
  x + HEADER_SIZE + size h = e → ∃ l0, l = l0 ++ [x].
Proof.
  intros Hseg Hx Hh He.
  destruct l as [|z l'] using rev_ind; [by apply elem_of_nil in Hx|].
  clear IHl'. exists l'. f_equal. f_equal.
  apply elem_of_app in Hx as [Hx|Hx]; [|by apply list_elem_of_singleton in Hx].
  apply seg_snoc in Hseg as (hz & Hseg & Hhz & Hsz & _ & Hez).
  apply seg_bounds in Hseg as (_ & Hall).
  destruct (Hall x Hx) as (h' & ? & ? & ? & ?). simplify_eq.
  unfold HEADER_SIZE in *. lia.
Qed.

(** The nodes of a segment are pairwise different: the list is acyclic. *)
Lemma seg_NoDup m p a l q e : seg m p a l q e → NoDup l.
Proof.
  revert p a. induction l as [|x l IH]; intros p a; simpl.
  - intros _. constructor.
  - intros (-> & -> & h & Hh & Hs & Hc). constructor; [|by eapply IH].
    intros Hin. apply seg_bounds in Hc as (_ & Hall).
    destruct (Hall x Hin) as (h' & ? & ? & ? & ?). unfold HEADER_SIZE in *. lia.
Qed.

Lemma seg_nonempty m p a l q e :
  seg m p a l q e → l ≠ [] → p = a ∧ a < e.
Proof.
  destruct l as [|x l]; [done|]. simpl.
  intros (-> & -> & h & Hh & Hs & Hc) _. split; [done|].
  apply seg_le in Hc. unfold HEADER_SIZE in *. lia.
Qed.

(** ** Loads, stores and the two loops *)

Lemma bind_Done {A B} (a : A) (k : A → outcome B) : (Done a ≫= k) = k a.
Proof. reflexivity. Qed.

Lemma load_Some a s h : hdrs s !! a = Some h → load a s = Done h.
Proof. intros H. unfold load. by rewrite H. Qed.

Lemma update_Some a f s h :
  hdrs s !! a = Some h → update a f s = Done (store a (f h) s).
Proof. intros H. unfold update. by rewrite (load_Some _ _ _ H). Qed.

Lemma get_free_block_from_NULL fuel m sz :
  get_free_block_from fuel m NULL sz = Done NULL.
Proof. by destruct fuel. Qed.

(** The search stops at the first node that fits. *)
Lemma get_free_block_from_hit fuel m p l1 x h sz :
  chain m p l1 x →
  Forall (λ y, ∀ hy, m !! y = Some hy → fits sz hy = false) l1 →
  x ≠ NULL → m !! x = Some h → fits sz h = true →
  (length l1 < fuel)%nat →
  get_free_block_from fuel m p sz = Done x.
Proof.
  revert p fuel. induction l1 as [|y l1 IH]; intros p fuel; simpl.
  - intros -> _ Hx Hh Hfit Hfuel. destruct fuel as [|fuel]; [lia|]. simpl.
    destruct (Z.eqb_spec x NULL); [done|]. by rewrite Hh, Hfit.
  - intros (-> & Hy & hy & Hhy & Hc) Hall Hx Hh Hfit Hfuel.
    destruct fuel as [|fuel]; [lia|]. simpl.
    destruct (Z.eqb_spec y NULL); [done|]. rewrite Hhy.
    apply Forall_cons in Hall as [Hy1 Hall]. rewrite (Hy1 _ Hhy).
    apply IH; [done..|lia].
Qed.

(** With no fitting node on the whole list the search returns [NULL]. *)
Lemma get_free_block_from_miss fuel m p l sz :
  chain m p l NULL →
  Forall (λ y, ∀ hy, m !! y = Some hy → fits sz hy = false) l →
  (length l <= fuel)%nat →
  get_free_block_from fuel m p sz = Done NULL.
Proof.
  revert p fuel. induction l as [|y l IH]; intros p fuel; simpl.
  - intros -> _ _. apply get_free_block_from_NULL.
  - intros (-> & Hy & hy & Hhy & Hc) Hall Hfuel.
    destruct fuel as [|fuel]; [lia|]. simpl.
    destruct (Z.eqb_spec y NULL); [done|]. rewrite Hhy.
    apply Forall_cons in Hall as [Hy1 Hall]. rewrite (Hy1 _ Hhy).
    apply IH; [done..|lia].
Qed.

(** On a complete list the search always answers: either a node of the
    list that fits, every node before it not fitting, or [NULL] when no
    node fits. *)
Lemma get_free_block_from_total fuel m p l sz :
  chain m p l NULL → (length l <= fuel)%nat →
  (get_free_block_from fuel m p sz = Done NULL ∧
   Forall (λ y, ∀ hy, m !! y = Some hy → fits sz hy = false) l) ∨
  (∃ l1 x l2 h, l = l1 ++ x :: l2 ∧ m !! x = Some h ∧ fits sz h = true ∧
     x ≠ NULL ∧
     Forall (λ y, ∀ hy, m !! y = Some hy → fits sz hy = false) l1 ∧
     get_free_block_from fuel m p sz = Done x).
Proof.
  revert p fuel. induction l as [|y l IH]; intros p fuel; simpl.
  - intros -> _. left. split; [apply get_free_block_from_NULL | constructor].
  - intros (-> & Hy & hy & Hhy & Hc) Hfuel.
    destruct fuel as [|fuel]; [lia|]. simpl.
    destruct (Z.eqb_spec y NULL); [done|]. rewrite Hhy.
    destruct (fits sz hy) eqn:Hfit.
    + right. exists [], y, l, hy. repeat split; [done..|constructor].
    + destruct (IH _ fuel Hc) as [(Hr & Hall)|(l1 & x & l2 & h & -> & Hh & Hf & Hx & Hall & Hr)];
        [lia| |].
      * left. split; [done|]. constructor; [|done].
        intros h' Hh'. by simplify_eq.
      * right. exists (y :: l1), x, l2, h. repeat split; [done..| |done].
        constructor; [|done]. intros h' Hh'. by simplify_eq.
Qed.

Lemma ffree_unlink_NULL fuel s : ffree_unlink fuel NULL s = Done s.
Proof. by destruct fuel. Qed.

(** The unlink loop walks to the node in front of the tail, clears its
    [next] and makes it the tail. *)
Lemma ffree_unlink_seg fuel s p a l0 pred hp t :
  seg (hdrs s) p a (l0 ++ [pred]) t t → 0 < a → tail s = t →
  hdrs s !! pred = Some hp → (length l0 < fuel)%nat →
  ffree_unlink fuel p s = Done (set_tail pred (store pred (set_next NULL hp) s)).
Proof.
  revert p a fuel. induction l0 as [|x l0 IH]; intros p a fuel; simpl.
  - intros (-> & -> & h & Hh & Hs & Hn & He) Ha Ht Hp Hfuel.
    destruct fuel as [|fuel]; [lia|]. rewrite Hp in Hh. injection Hh as <-.
    simpl.
    destruct (Z.eqb_spec pred NULL) as [->|_]; [unfold NULL in *; lia|].
    rewrite (load_Some _ _ _ Hp), bind_Done, Hn, Ht, Z.eqb_refl.
    rewrite (update_Some _ _ _ _ Hp), !bind_Done.
    unfold load, store. simpl. rewrite lookup_insert_eq, bind_Done. simpl.
    apply ffree_unlink_NULL.
  - intros (-> & -> & h & Hh & Hs & Hc) Ha Ht Hp Hfuel.
    destruct fuel as [|fuel]; [lia|]. simpl.
    destruct (Z.eqb_spec x NULL) as [->|_]; [unfold NULL in *; lia|].
    rewrite (load_Some _ _ _ Hh), bind_Done.
    assert (next h < t) as Hlt.
    { apply seg_nonempty in Hc as [-> ?]; [done|]. by destruct l0. }
    destruct (Z.eqb_spec (next h) (tail s)); [lia|].
    rewrite !bind_Done, (load_Some _ _ _ Hh), bind_Done.
    eapply IH; [done| |done..|lia]. unfold HEADER_SIZE. lia.
Qed.

(** ** Operations on well-formed states *)

Lemma wf_init lo hi :
  0 < lo → lo <= hi → hi < half_modulus → wf (init_state lo hi) [].
Proof. intros. by constructor. Qed.

Lemma wf_block s l x :
  wf s l → x ∈ l →
  ∃ h, hdrs s !! x = Some h ∧ 0 < size h ∧
       min_brk s <= x ∧ x + HEADER_SIZE + size h <= brk s.
Proof. intros [] Hx. by eapply seg_bounds in wf_seg0 as [_ H]; eauto. Qed.

Lemma wf_addr s l x :
  wf s l → x ∈ l → 0 < x < half_modulus ∧ x ≠ NULL.
Proof.
  intros Hwf Hx. destruct (wf_block _ _ _ Hwf Hx) as (h & _ & ? & ? & ?).
  destruct Hwf. unfold HEADER_SIZE, NULL in *. lia.
Qed.

Lemma wf_brk_range s l : wf s l → 0 < min_brk s <= brk s ∧ brk s < half_modulus.
Proof. intros []. apply seg_le in wf_seg0. lia. Qed.

Lemma wf_chain s l : wf s l → chain (hdrs s) (head s) l NULL.
Proof. intros []. by eapply seg_chain. Qed.

Lemma wf_head_tail s l : wf s l → (head s = NULL ↔ tail s = NULL).
Proof.
  intros Hwf. pose proof (wf_chain _ _ Hwf) as Hc. destruct Hwf.
  destruct l as [|x l] using rev_ind.
  - simpl in *. by rewrite wf_tail0.
  - clear IHl. rewrite last_snoc in wf_tail0. simpl in wf_tail0.
    apply chain_app in Hc as (r & Hc & -> & Hx & _).
    split; intros H0; [|congruence].
    destruct l; simpl in Hc; [congruence|]. destruct Hc as (? & ? & _). congruence.
Qed.

(** Flipping the free flag of a header keeps the state well formed. *)
Lemma wf_store_flag s l x h b :
  wf s l → hdrs s !! x = Some h → wf (store x (set_is_free b h) s) l.
Proof.
  intros [] Hh. constructor; simpl; try done.
  eapply seg_frame; [|done]. intros y hy _ Hy.
  destruct (decide (x = y)) as [->|Hne].
  - rewrite lookup_insert_eq. simplify_eq. by eexists.
  - rewrite lookup_insert_ne by done. by eexists.
Qed.

(** Reusing a free block: the first-fit branch of [mmalloc]. *)
Lemma mmalloc_reuse fuel sz s l1 x h :
  sz ≠ 0 → chain (hdrs s) (head s) l1 x →
  Forall (λ y, ∀ hy, hdrs s !! y = Some hy → fits sz hy = false) l1 →
  x ≠ NULL → hdrs s !! x = Some h → fits sz h = true →
  (length l1 < fuel)%nat →
  mmalloc fuel sz s = Done (payload x, store x (set_is_free false h) s).
Proof.
  intros Hsz Hc Hall Hx Hh Hfit Hfuel. unfold mmalloc, get_free_block.
  destruct (Z.eqb_spec sz 0); [done|].
  rewrite (get_free_block_from_hit _ _ _ _ _ _ _ Hc Hall Hx Hh Hfit Hfuel).
  rewrite bind_Done. destruct (Z.eqb_spec x NULL); [done|]. simpl.
  by rewrite (update_Some _ _ _ _ Hh).
Qed.

Lemma insert_alter_Some (m : gmap Z header_t) k v f :
  m !! k = Some v → <[k := f v]> m = alter f k m.
Proof.
  intros H. apply map_eq. intros i. rewrite lookup_alter, lookup_insert.
  destruct (decide (k = i)) as [->|]; [by rewrite H|done].
Qed.

(** The growth branch of [mmalloc], on any state whose [tail], when it
    is not [NULL], points at a header. *)
Lemma mmalloc_grow_ok sz s block s1 :
  sbrk (wrap (HEADER_SIZE + sz)) s = (block, s1) → block ≠ SBRK_FAILED →
  (tail s ≠ NULL → is_Some (hdrs s !! tail s)) →
  let fresh := {| size := sz; is_free := false; next := NULL |} in
  mmalloc_grow sz s =
  Done (payload block,
        {| head := if head s =? NULL then block else head s;
           tail := block;
           min_brk := min_brk s1; brk := brk s1; max_brk := max_brk s1;
           hdrs := if tail s =? NULL then <[block := fresh]> (hdrs s)
                   else alter (set_next block) (tail s)
                          (<[block := fresh]> (hdrs s));
           bytes := bytes s |}).
Proof.
  intros Hs Hb Ht fresh. unfold mmalloc_grow. rewrite Hs.
  destruct (Z.eqb_spec block SBRK_FAILED); [done|].
  destruct (sbrk_cases (wrap (HEADER_SIZE + sz)) s) as [E|(b & E & _)];
    rewrite E in Hs; injection Hs as <- <-; [done|].
  assert (∀ s3, hdrs s3 = <[brk s := fresh]> (hdrs s) → tail s ≠ NULL →
            update (tail s) (set_next (brk s)) s3 =
            Done (set_hdrs (alter (set_next (brk s)) (tail s)
                              (<[brk s := fresh]> (hdrs s))) s3)) as Hupd.
  { intros s3 Hm Hne. destruct (Ht Hne) as [ht Hht].
    assert (is_Some (hdrs s3 !! tail s)) as [h3 Hh3].
    { rewrite Hm, lookup_insert. case_decide; [done|by rewrite Hht]. }
    rewrite (update_Some _ _ _ _ Hh3). unfold store. rewrite <- Hm.
    f_equal. f_equal. by apply insert_alter_Some. }
  simpl. destruct (Z.eqb_spec (head s) NULL); simpl;
    (destruct (Z.eqb_spec (tail s) NULL) as [|Hne]; simpl; [done|]);
    by rewrite Hupd.
Qed.

Lemma mmalloc_grow_refused sz s block s1 :
  sbrk (wrap (HEADER_SIZE + sz)) s = (block, s1) → block = SBRK_FAILED →
  mmalloc_grow sz s = Done (NULL, s1).
Proof.
  intros Hs ->. unfold mmalloc_grow. rewrite Hs. by rewrite Z.eqb_refl.
Qed.

(** Growth of a well-formed state by a request that does not wrap. *)
Lemma mmalloc_grow_wf sz s l :
  wf s l → 0 < sz → HEADER_SIZE + sz < half_modulus →
  brk s + HEADER_SIZE + sz <= max_brk s →
  ∃ s', mmalloc_grow sz s = Done (brk s + HEADER_SIZE, s') ∧
        wf s' (l ++ [brk s]) ∧
        hdrs s' !! brk s = Some {| size := sz; is_free := false; next := NULL |} ∧
        brk s' = brk s + HEADER_SIZE + sz ∧
        bytes s' = bytes s ∧
        (∀ y h, y ∈ l → hdrs s !! y = Some h →
           ∃ h', hdrs s' !! y = Some h' ∧ size h' = size h ∧
                 is_free h' = is_free h).
Proof.
  intros Hwf Hsz Hfit Hroom.
  pose proof (wf_brk_range _ _ Hwf) as Hbr.
  pose proof (wf_head_tail _ _ Hwf) as Hht.
  assert (wrap (HEADER_SIZE + sz) = HEADER_SIZE + sz) as Hw.
  { apply wrap_small. unfold HEADER_SIZE in *.
    rewrite modulus_eq, half_modulus_eq in *. lia. }
  assert (sbrk (wrap (HEADER_SIZE + sz)) s
          = (brk s, set_brk (brk s + (HEADER_SIZE + sz)) s)) as Hs.
  { rewrite Hw. apply sbrk_grow; unfold HEADER_SIZE in *; lia. }
  assert (brk s ≠ SBRK_FAILED) as Hnf.
  { unfold SBRK_FAILED. rewrite modulus_eq, half_modulus_eq in *. lia. }
  assert (brk s ∉ l) as Hfresh.
  { destruct Hwf. eapply seg_fresh; [done|lia]. }
  assert (tail s ≠ NULL → is_Some (hdrs s !! tail s)) as Htl.
  { intros Hne. destruct Hwf. destruct l as [|t l0] using rev_ind; [done|].
    rewrite last_snoc in wf_tail0. simpl in wf_tail0. subst t.
    apply seg_snoc in wf_seg0 as (h & _ & Hh & _). by rewrite Hh. }
  eexists. split.
  { rewrite (mmalloc_grow_ok _ _ _ _ Hs Hnf Htl).
    by rewrite (payload_small (brk s)) by lia. }
  set (fresh := {| size := sz; is_free := false; next := NULL |}).
  destruct Hwf. simpl.
  destruct l as [|t l0 _] using rev_ind.
  - simpl in *. destruct wf_seg0 as [Hh Hb]. rewrite wf_tail0, Hh. simpl.
    split; [|rewrite lookup_insert_eq; split; [done|];
             split; [lia|]; split; [done|];
             by intros y h Hy%elem_of_nil].
    constructor; simpl; try done; [lia|]. rewrite Hb.
    repeat split. exists fresh. rewrite lookup_insert_eq.
    repeat split; simpl; [done|lia].
  - rewrite last_snoc in wf_tail0. simpl in wf_tail0.
    pose proof wf_seg0 as Hseg.
    apply seg_snoc in Hseg as (ht & Hseg & Hh & Hst & Hnt & Het).
    assert (t ≠ NULL) as Htn.
    { apply seg_le in Hseg. unfold NULL. lia. }
    assert (head s ≠ NULL) as Hhn by (rewrite Hht; congruence).
    rewrite wf_tail0.
    destruct (Z.eqb_spec (head s) NULL); [done|].
    destruct (Z.eqb_spec t NULL); [done|].
    assert (t ≠ brk s) as Htb by (unfold HEADER_SIZE in *; lia).
    split; [|split; [|split; [lia|split; [done|]]]].
    + constructor; simpl; try done; [lia| |by rewrite last_snoc].
      apply seg_snoc. exists fresh. fold fresh.
      rewrite lookup_alter_ne, lookup_insert_eq by done.
      repeat split; simpl; [|done|lia].
      apply seg_snoc. exists (set_next (brk s) ht).
      rewrite lookup_alter_eq, lookup_insert_ne, Hh by done.
      repeat split; simpl; [|done..].
      eapply seg_frame; [|done]. intros y hy Hy Hhy.
      assert (y ≠ t).
      { intros ->. apply seg_fresh with (b := t) in Hseg; [done|lia]. }
      assert (y ≠ brk s).
      { intros ->. apply Hfresh. apply elem_of_app. by left. }
      exists hy. by rewrite lookup_alter_ne, lookup_insert_ne.
    + by rewrite lookup_alter_ne, lookup_insert_eq.
    + intros y hy Hy Hhy.
      assert (y ≠ brk s) by (intros ->; done).
      destruct (decide (y = t)) as [->|Hyt].
      * exists (set_next (brk s) ht).
        rewrite lookup_alter_eq, lookup_insert_ne by done.
        rewrite Hh in Hhy |- *. by simplify_eq.
      * exists hy. by rewrite lookup_alter_ne, lookup_insert_ne.
Qed.

(** A request that does not wrap and does not fit under [max_brk]
    is refused and changes nothing. *)
Lemma mmalloc_grow_wf_refused sz s l :
  wf s l → 0 < sz → HEADER_SIZE + sz < half_modulus →
  max_brk s < brk s + HEADER_SIZE + sz →
  mmalloc_grow sz s = Done (NULL, s).
Proof.
  intros Hwf Hsz Hfit Hroom.
  eapply mmalloc_grow_refused; [|done].
  rewrite wrap_small.
  - apply sbrk_refuse; unfold HEADER_SIZE in *; lia.
  - unfold HEADER_SIZE in *. rewrite modulus_eq, half_modulus_eq in *. lia.
Qed.

(** In a well-formed state, the test of [ffree] holds exactly for the
    last block of the list. *)
Lemma ffree_test_wf s l x h :
  wf s l → x ∈ l → hdrs s !! x = Some h →
  wrap (payload x + size h) = x + HEADER_SIZE + size h ∧
  (x + HEADER_SIZE + size h = brk s ↔ ∃ l0, l = l0 ++ [x]).
Proof.
  intros Hwf Hx Hh.
  destruct (wf_block _ _ _ Hwf Hx) as (h' & Hh' & Hs & Hlo & Hhi).
  destruct (wf_addr _ _ _ Hwf Hx) as [Hr _].
  pose proof (wf_brk_range _ _ Hwf). simplify_eq.
  rewrite payload_small by lia. split.
  - apply wrap_small. unfold HEADER_SIZE in *.
    rewrite modulus_eq, half_modulus_eq in *. lia.
  - split.
    + intros He. destruct Hwf. by eapply seg_end_is_last.
    + intros (l0 & ->). destruct Hwf.
      apply seg_snoc in wf_seg0 as (hx & _ & ? & _ & _ & ?). by simplify_eq.
Qed.

(** Releasing a block that is not the last one only sets its flag. *)
Lemma ffree_inner_wf fuel s l x h :
  wf s l → x ∈ l → hdrs s !! x = Some h →
  x + HEADER_SIZE + size h ≠ brk s →
  ffree fuel (payload x) s = Done (store x (set_is_free true h) s).
Proof.
  intros Hwf Hx Hh Hne.
  destruct (wf_addr _ _ _ Hwf Hx) as [Hr _].
  destruct (ffree_test_wf _ _ _ _ Hwf Hx Hh) as [Hw _].
  pose proof (wf_brk_range _ _ Hwf). unfold ffree.
  rewrite payload_eqb_NULL by lia.
  rewrite header_of_payload by lia.
  rewrite sbrk_zero by (destruct Hwf; lia). simpl.
  rewrite (load_Some _ _ _ Hh), bind_Done, Hw.
  destruct (Z.eqb_spec (x + HEADER_SIZE + size h) (brk s)); [done|].
  by rewrite (update_Some _ _ _ _ Hh).
Qed.

(** Releasing the only block empties the list and gives the arena back. *)
Lemma ffree_only_wf fuel s x h :
  wf s [x] → hdrs s !! x = Some h →
  ffree fuel (payload x) s
  = Done (set_brk x (set_tail NULL (set_head NULL s))) ∧
  wf (set_brk x (set_tail NULL (set_head NULL s))) [] ∧
  x = brk s - (HEADER_SIZE + size h).
Proof.
  intros Hwf Hh.
  assert (x ∈ [x]) as Hx by apply list_elem_of_here.
  destruct (wf_addr _ _ _ Hwf Hx) as [Hr _].
  destruct (ffree_test_wf _ _ _ _ Hwf Hx Hh) as [Hw [_ Hlast]].
  pose proof (wf_brk_range _ _ Hwf) as Hbr.
  specialize (Hlast (ex_intro _ [] eq_refl)).
  destruct Hwf. simpl in *.
  destruct wf_seg0 as (Hhd & Hmin & h' & Hh' & Hs & _ & _).
  rewrite Hh in Hh'. injection Hh' as <-.
  split; [|split; [constructor; simpl; try done; lia|lia]].
  unfold ffree.
  rewrite payload_eqb_NULL by lia.
  rewrite header_of_payload by lia.
  rewrite sbrk_zero by lia. simpl.
  rewrite (load_Some _ _ _ Hh), bind_Done, Hw, Hlast, Z.eqb_refl.
  rewrite wf_tail0, Hhd, Z.eqb_refl, bind_Done.
  unfold load. simpl. rewrite Hh, bind_Done.
  replace (0 - HEADER_SIZE - size h) with (0 - (HEADER_SIZE + size h)) by lia.
  rewrite sbrk_shrink; simpl; [|unfold HEADER_SIZE in *; lia..].
  do 2 f_equal. unfold set_brk. simpl. f_equal; lia.
Qed.

(** Releasing the last of several blocks unlinks it, makes its
    predecessor the tail and gives its extent back. *)
Lemma ffree_last_wf fuel s l1 pred x h hp :
  wf s (l1 ++ [pred; x]) → hdrs s !! x = Some h → hdrs s !! pred = Some hp →
  (length l1 < fuel)%nat →
  let s' := set_brk x (set_tail pred (store pred (set_next NULL hp) s)) in
  ffree fuel (payload x) s = Done s' ∧ wf s' (l1 ++ [pred]) ∧
  next hp = x ∧ head s ≠ tail s ∧ tail s = x ∧
  x = brk s - (HEADER_SIZE + size h).
Proof.
  intros Hwf Hh Hp Hfuel s'.
  assert (x ∈ l1 ++ [pred; x]) as Hx.
  { apply elem_of_app. right. apply elem_of_cons. right. apply list_elem_of_here. }
  destruct (wf_addr _ _ _ Hwf Hx) as [Hr _].
  destruct (ffree_test_wf _ _ _ _ Hwf Hx Hh) as [Hw [_ Hlast]].
  pose proof (wf_brk_range _ _ Hwf) as Hbr.
  assert (x + HEADER_SIZE + size h = brk s) as He.
  { apply Hlast. exists (l1 ++ [pred]). by rewrite <- app_assoc. }
  destruct (wf_block _ _ _ Hwf Hx) as (h' & Hh' & Hs & Hlo & Hhi).
  simplify_eq. destruct Hwf.
  replace (l1 ++ [pred; x]) with ((l1 ++ [pred]) ++ [x]) in *
    by by rewrite <- app_assoc.
  rewrite last_snoc in wf_tail0. simpl in wf_tail0.
  apply seg_snoc in wf_seg0 as (hx & Hseg & Hhx & _ & Hnx & _).
  pose proof Hseg as Hseg'.
  apply seg_snoc in Hseg' as (hp' & Hseg0 & Hhp & Hsp & Hnp & Hep).
  rewrite Hh in Hhx. injection Hhx as <-.
  rewrite Hp in Hhp. injection Hhp as <-.
  assert (head s ≠ x) as Hhx'.
  { apply seg_nonempty in Hseg as [-> ?]; [lia|]. by destruct l1. }
  assert (pred ≠ x) as Hpx by (unfold HEADER_SIZE in *; lia).
  split; [|split; [|rewrite wf_tail0; repeat split; [done..|lia]]].
  - unfold ffree.
    rewrite payload_eqb_NULL by lia.
    rewrite header_of_payload by lia.
    rewrite sbrk_zero by lia. simpl.
    rewrite (load_Some _ _ _ Hh), bind_Done, Hw, He, Z.eqb_refl.
    rewrite wf_tail0. destruct (Z.eqb_spec (head s) x); [done|].
    rewrite (ffree_unlink_seg fuel s (head s) (min_brk s) l1 pred hp x Hseg);
      [|lia|done..].
    rewrite bind_Done. unfold load. simpl.
    rewrite lookup_insert_ne, Hh, bind_Done by done.
    replace (0 - HEADER_SIZE - size h) with (0 - (HEADER_SIZE + size h)) by lia.
    rewrite sbrk_shrink; simpl; [|unfold HEADER_SIZE in *; lia..].
    unfold s'. do 2 f_equal. lia.
  - constructor; simpl; try done;
      [unfold HEADER_SIZE in *; lia| |by rewrite last_snoc].
    apply seg_snoc. exists (set_next NULL hp).
    rewrite lookup_insert_eq. repeat split; simpl; [|done|lia].
    eapply seg_frame; [|done]. intros y hy Hy Hhy.
    assert (y ≠ pred).
    { intros ->. apply seg_fresh with (b := pred) in Hseg0; [done|lia]. }
    exists hy. by rewrite lookup_insert_ne.
Qed.

(** Whatever the search returns is [NULL] or a fitting node of the list. *)
Lemma get_free_block_from_in fuel m p l sz r :
  chain m p l NULL → get_free_block_from fuel m p sz = Done r →
  r = NULL ∨ (r ∈ l ∧ ∃ h, m !! r = Some h ∧ fits sz h = true).
Proof.
  revert p fuel. induction l as [|y l IH]; intros p fuel; simpl.
  - intros ->. rewrite get_free_block_from_NULL. intros [= <-]. by left.
  - intros (-> & Hy & hy & Hhy & Hc). destruct fuel as [|fuel]; simpl.
    + by destruct (Z.eqb_spec y NULL).
    + destruct (Z.eqb_spec y NULL); [done|]. rewrite Hhy.
      destruct (fits sz hy) eqn:Hfit.
      * intros [= <-]. right. split; [left|eauto].
      * intros Hr. destruct (IH _ _ Hc Hr) as [->|(Hin & H)]; [by left|].
        right. split; [by right|done].
Qed.

(** In a well-formed state an allocation that returns [NULL] has
    changed nothing. *)
Lemma mmalloc_NULL_wf fuel sz s l s1 :
  wf s l → mmalloc fuel sz s = Done (NULL, s1) → s1 = s.
Proof.
  intros Hwf. unfold mmalloc, get_free_block.
  destruct (Z.eqb_spec sz 0); [by intros [= <-]|].
  destruct (get_free_block_from fuel (hdrs s) (head s) sz) as [r| |] eqn:Hr;
    [|done..].
  rewrite bind_Done.
  destruct (get_free_block_from_in _ _ _ _ _ _ (wf_chain _ _ Hwf) Hr)
    as [->|(Hin & h & Hh & Hfit)].
  - simpl. pose proof (wf_brk_range _ _ Hwf) as Hbr.
    unfold mmalloc_grow.
    destruct (sbrk_cases (wrap (HEADER_SIZE + sz)) s) as [E|(b & E & _)];
      rewrite E.
    + rewrite Z.eqb_refl. by intros [= <-].
    + destruct (Z.eqb_spec (brk s) SBRK_FAILED) as [E'|_].
      { unfold SBRK_FAILED in E'. rewrite modulus_eq, half_modulus_eq in *. lia. }
      destruct (_ : outcome state); simpl; [|done..].
      rewrite payload_small by lia. intros [= E' _].
      unfold HEADER_SIZE, NULL in *. lia.
  - destruct (wf_addr _ _ _ Hwf Hin) as [Hr' Hn].
    destruct (Z.eqb_spec r NULL); [done|]. simpl.
    rewrite (update_Some _ _ _ _ Hh), bind_Done, payload_small by lia.
    intros [= E' _]. unfold HEADER_SIZE, NULL in *. lia.
Qed.

(** What [mmalloc] does on a well-formed state when the request does
    not wrap: it is refused for lack of room, or reuses the first
    fitting block, or appends a block at the break. *)
Lemma mmalloc_wf fuel sz s l :
  wf s l → 0 < sz → HEADER_SIZE + sz < half_modulus →
  (length l <= fuel)%nat →
  let nofit := Forall (λ y, ∀ hy, hdrs s !! y = Some hy → fits sz hy = false) in
  (nofit l ∧ max_brk s < brk s + HEADER_SIZE + sz ∧
   mmalloc fuel sz s = Done (NULL, s)) ∨
  (∃ l1 x l2 h, l = l1 ++ x :: l2 ∧ nofit l1 ∧
     hdrs s !! x = Some h ∧ fits sz h = true ∧
     mmalloc fuel sz s
     = Done (x + HEADER_SIZE, store x (set_is_free false h) s) ∧
     wf (store x (set_is_free false h) s) l) ∨
  (nofit l ∧ brk s + HEADER_SIZE + sz <= max_brk s ∧
   ∃ s', mmalloc fuel sz s = Done (brk s + HEADER_SIZE, s') ∧
         wf s' (l ++ [brk s]) ∧
         hdrs s' !! brk s = Some {| size := sz; is_free := false; next := NULL |} ∧
         brk s' = brk s + HEADER_SIZE + sz ∧
         bytes s' = bytes s ∧
         (∀ y h, y ∈ l → hdrs s !! y = Some h →
            ∃ h', hdrs s' !! y = Some h' ∧ size h' = size h ∧
                  is_free h' = is_free h)).
Proof.
  intros Hwf Hsz Hfit Hfuel nofit.
  pose proof (wf_chain _ _ Hwf) as Hc.
  destruct (get_free_block_from_total fuel _ _ _ sz Hc Hfuel)
    as [(Hr & Hall)|(l1 & x & l2 & h & -> & Hh & Hf & Hx & Hall & Hr)].
  - assert (mmalloc fuel sz s = mmalloc_grow sz s) as ->.
    { unfold mmalloc, get_free_block. rewrite Hr.
      destruct (Z.eqb_spec sz 0); [lia|done]. }
    destruct (Z_le_gt_dec (brk s + HEADER_SIZE + sz) (max_brk s)) as [Hroom|Hroom].
    + right. right. split; [done|]. split; [done|].
      by apply mmalloc_grow_wf.
    + left. split; [done|]. split; [lia|].
      eapply mmalloc_grow_wf_refused; [done..|lia].
  - right. left. exists l1, x, l2, h.
    assert (x ∈ l1 ++ x :: l2) as Hin.
    { apply elem_of_app. right. left. }
    destruct (wf_addr _ _ _ Hwf Hin) as [Hr' _].
    apply chain_app in Hc as (r & Hc1 & Hc2).
    assert (r = x) as -> by (simpl in Hc2; tauto).
    do 4 (split; [done|]). split; [|by apply wf_store_flag].
    rewrite <- payload_small by lia.
    apply mmalloc_reuse with (l1 := l1); try done; [lia|].
    rewrite length_app in Hfuel. simpl in Hfuel. lia.
Qed.

(** ** What the operations never touch *)


Lemma sbrk_hdrs n s : hdrs (snd (sbrk n s)) = hdrs s.
Proof. by destruct (sbrk_cases n s) as [->|(b & -> & _)]. Qed.









(** ** [memcpy] *)



(** ** Allocation of any size, and release, on well-formed states *)

Lemma wf_tail_header s l : wf s l → tail s ≠ NULL → is_Some (hdrs s !! tail s).
Proof.
  intros [] Hne. destruct l as [|t l0 _] using rev_ind; [done|].
  rewrite last_snoc in wf_tail0. simpl in wf_tail0. subst t.
  apply seg_snoc in wf_seg0 as (h & _ & Hh & _). by rewrite Hh.
Qed.

Lemma wf_set_bytes s l m : wf s l → wf (set_bytes m s) l.
Proof. by intros []. Qed.



(** On a well-formed state [ffree] of a block of the list returns a
    well-formed state, whose list is the old one or the old one
    without its last node. *)
Lemma ffree_wf fuel s l x :
  wf s l → x ∈ l → (length l <= fuel)%nat →
  ∃ s' l', ffree fuel (payload x) s = Done s' ∧ wf s' l' ∧
           (l' = l ∨ l = l' ++ [x]) ∧ bytes s' = bytes s.
Proof.
  intros Hwf Hx Hfuel.
  destruct (wf_block _ _ _ Hwf Hx) as (h & Hh & _).
  destruct (decide (x + HEADER_SIZE + size h = brk s)) as [He|Hne].
  - destruct (ffree_test_wf _ _ _ _ Hwf Hx Hh) as [_ [Hl _]].
    destruct (Hl He) as (l0 & ->).
    destruct l0 as [|pred l1 _] using rev_ind.
    + destruct (ffree_only_wf fuel _ _ _ Hwf Hh) as (E & Hwf' & _).
      eexists _, []. split; [done|]. split; [done|]. split; [by right|done].
    + rewrite <- app_assoc in Hwf, Hfuel. simpl in Hwf, Hfuel.
      assert (pred ∈ l1 ++ [pred; x]) as Hp.
      { apply elem_of_app. right. left. }
      destruct (wf_block _ _ _ Hwf Hp) as (hp & Hhp & _).
      destruct (ffree_last_wf fuel _ _ _ _ _ _ Hwf Hh Hhp) as (E & Hwf' & _).
      { rewrite length_app in Hfuel. simpl in Hfuel. lia. }
      eexists _, (l1 ++ [pred]). split; [done|]. split; [done|].
      split; [by right|done].
  - rewrite (ffree_inner_wf _ _ _ _ _ Hwf Hx Hh Hne).
    eexists _, l. split; [done|]. split; [by apply wf_store_flag|].
    split; [by left|done].
Qed.

(** ** The sample states are states of real runs *)

Lemma abc_state_reached :
  run 3 [Mmalloc 4; Mmalloc 8; Mmalloc 1] fresh_process
  = Done ([4120; 4148; 4180], abc_state).
Proof. vm_compute. reflexivity. Qed.

Lemma bc_state_reached : ffree 3 4120 abc_state = Done bc_state.
Proof. vm_compute. reflexivity. Qed.

(** [full_state] is the state after one [mmalloc(4)] in an arena of 28
    bytes, once the caller has written 36 into the block. *)
Lemma full_state_reached :
  mmalloc 0 4 (init_state 4096 4124) = Done (4120, set_bytes ∅ full_state).
Proof. vm_compute. reflexivity. Qed.

(** * Specification of the operations *)

(** ** Zero-sized requests *)

(** C8. A zero-sized request returns [NULL] and leaves the whole state
    as it was: [mmalloc(0)], [rrealloc(p, 0)] for every [p] (so the
    block of [p] is not released), and [ccalloc] with a zero count or
    a zero element size.  No fuel is needed. *)
Theorem zero_size_requests_fail (fuel : nat) (p n : Z) (s : state) :
  mmalloc fuel 0 s = Done (NULL, s) ∧
  rrealloc fuel p 0 s = Done (NULL, s) ∧
  ccalloc fuel 0 n s = Done (NULL, s) ∧
  ccalloc fuel n 0 s = Done (NULL, s).
Proof.
  repeat split.
  - unfold rrealloc. by rewrite orb_true_r.
  - unfold ccalloc. by rewrite orb_true_r.
Qed.

(** ** Overflow in [ccalloc] *)

Lemma mul_overflows_iff num nsize :
  0 < num < modulus → 0 < nsize < modulus →
  mul_overflows num nsize = true ↔ modulus <= num * nsize.
Proof.
  intros Hn Hk. unfold mul_overflows. rewrite negb_true_iff, Z.eqb_neq.
  pose proof (wrap_range (num * nsize)) as Hw.
  destruct (Z_lt_ge_dec (num * nsize) modulus) as [Hlt|Hge].
  - rewrite wrap_small by nia.
    rewrite Z.mul_comm, Z.div_mul by lia. lia.
  - split; [lia|]. intros _ E.
    assert (wrap (num * nsize) / num < nsize); [|lia].
    apply Z.div_lt_upper_bound; lia.
Qed.

(** C7. For non-zero arguments the round-trip test of [ccalloc],
    [nsize != (num * nsize mod 2^64) / num], fires exactly when the
    product does not fit in 64 bits; then [ccalloc] returns [NULL]
    without calling [mmalloc] and the state is unchanged.  When the
    product fits, [ccalloc] goes on to [mmalloc] with the true
    product. *)
Theorem ccalloc_overflow (fuel : nat) (num nsize : Z) (s : state) :
  0 < num < modulus → 0 < nsize < modulus →
  (mul_overflows num nsize = true ↔ modulus <= num * nsize) ∧
  (modulus <= num * nsize → ccalloc fuel num nsize s = Done (NULL, s)) ∧
  (num * nsize < modulus →
   ccalloc fuel num nsize s =
   '(block, s1) ← mmalloc fuel (num * nsize) s;
   if block =? NULL then Done (NULL, s1)
   else Done (block,
              set_bytes (memset (Z.to_nat (num * nsize)) block 0 (bytes s1)) s1)).
Proof.
  intros Hn Hk. pose proof (mul_overflows_iff _ _ Hn Hk) as Hiff.
  split; [done|]. unfold ccalloc.
  destruct (Z.eqb_spec num 0); [lia|]. destruct (Z.eqb_spec nsize 0); [lia|].
  simpl. split.
  - intros Hge. apply Hiff in Hge. by rewrite Hge.
  - intros Hlt. destruct (mul_overflows num nsize) eqn:E.
    + assert (modulus <= num * nsize) by by apply Hiff. lia.
    + by rewrite wrap_small by nia.
Qed.

Lemma ccalloc_overflow_witness :
  (0 < 4294967296 < modulus) ∧ (0 < 4294967296 < modulus) ∧
  mul_overflows 4294967296 4294967296 = true ∧
  ccalloc 0 4294967296 4294967296 fresh_process = Done (NULL, fresh_process).
Proof.
  assert (0 < 4294967296 < modulus) as H by (rewrite modulus_eq; lia).
  destruct (ccalloc_overflow 0 4294967296 4294967296 fresh_process H H)
    as (Hiff & Hfail & _).
  split; [done|]. split; [done|]. split.
  - apply Hiff. rewrite modulus_eq. lia.
  - apply Hfail. rewrite modulus_eq. lia.
Defined.

(** ** First fit *)






(** ** Growth *)

Lemma wf_abc_state : wf abc_state [4096; 4124; 4156].
Proof.
  constructor; [reflexivity|reflexivity|simpl; lia| |reflexivity].
  simpl. unfold HEADER_SIZE.
  repeat split. eexists. split; [reflexivity|]. simpl. split; [lia|].
  repeat split. eexists. split; [reflexivity|]. simpl. split; [lia|].
  repeat split. eexists. split; [reflexivity|]. simpl. split; [lia|].
  done.
Defined.

(** A granted [sbrk] of a positive amount returns the old break and
    moves the break up by exactly that amount. *)
Lemma sbrk_granted n s block s1 :
  0 <= n < half_modulus → sbrk n s = (block, s1) → block ≠ SBRK_FAILED →
  block = brk s ∧ s1 = set_brk (brk s + n) s.
Proof.
  intros Hn. unfold sbrk. rewrite to_signed_small by done.
  destruct (_ && _); intros [= <- <-] Hb; done.
Qed.

(** Growth seen from the list alone: [l] is the whole list, its
    headers lie below the break, no node passes the test, and the
    total size does not wrap. *)
Lemma mmalloc_grow_below_break (fuel : nat) (sz : Z) (s : state)
    (l : list Z) (block : Z) (s1 : state) :
  0 < sz → HEADER_SIZE + sz < half_modulus →
  chain (hdrs s) (head s) l NULL → tail s = default NULL (last l) →
  Forall (λ x, x + HEADER_SIZE <= brk s) l →
  no_fit (hdrs s) sz l → (length l <= fuel)%nat →
  sbrk (HEADER_SIZE + sz) s = (block, s1) →
  (block = SBRK_FAILED →
   mmalloc fuel sz s = Done (NULL, s1) ∧
   head s1 = head s ∧ tail s1 = tail s ∧ hdrs s1 = hdrs s) ∧
  (block ≠ SBRK_FAILED →
   block = brk s ∧
   match l with
   | [] =>
       mmalloc fuel sz s =
       Done (payload block,
             {| head := block; tail := block;
                min_brk := min_brk s; brk := brk s + HEADER_SIZE + sz;
                max_brk := max_brk s;
                hdrs := <[block := {| size := sz; is_free := false;
                                      next := NULL |}]> (hdrs s);
                bytes := bytes s |})
   | _ :: _ =>
       ∃ ht, hdrs s !! tail s = Some ht ∧ tail s ≠ block ∧
         mmalloc fuel sz s =
         Done (payload block,
               {| head := head s; tail := block;
                  min_brk := min_brk s; brk := brk s + HEADER_SIZE + sz;
                  max_brk := max_brk s;
                  hdrs := <[tail s := {| size := size ht; is_free := is_free ht;
                                         next := block |}]>
                            (<[block := {| size := sz; is_free := false;
                                           next := NULL |}]> (hdrs s));
                  bytes := bytes s |})
   end).
Proof.
  intros Hsz Hfit Hc Ht Hbelow Hall Hfuel Hs.
  assert (wrap (HEADER_SIZE + sz) = HEADER_SIZE + sz) as Hw.
  { apply wrap_small. unfold HEADER_SIZE in *.
    rewrite modulus_eq, half_modulus_eq in *. lia. }
  assert (mmalloc fuel sz s = mmalloc_grow sz s) as ->.
  { unfold mmalloc, get_free_block.
    rewrite (get_free_block_from_miss _ _ _ _ _ Hc Hall Hfuel).
    destruct (Z.eqb_spec sz 0); [lia|done]. }
  rewrite <- Hw in Hs.
  split.
  - intros Hb. rewrite (mmalloc_grow_refused _ _ _ _ Hs Hb).
    destruct (sbrk_cases (wrap (HEADER_SIZE + sz)) s) as [E|(b & E & _)];
      rewrite E in Hs; by injection Hs as <- <-.
  - intros Hb.
    destruct (sbrk_granted (HEADER_SIZE + sz) s block s1) as [Hblock Hs1];
      [unfold HEADER_SIZE in *; lia|by rewrite <- Hw|done|].
    split; [done|].
    assert (tail s ≠ NULL → is_Some (hdrs s !! tail s)) as Htl.
    { intros Hne. destruct l as [|t l0 _] using rev_ind; [done|].
      rewrite last_snoc in Ht. simpl in Ht. rewrite Ht.
      apply chain_app in Hc as (r & _ & _ & _ & h & Hh & _). by rewrite Hh. }
    rewrite (mmalloc_grow_ok _ _ _ _ Hs Hb Htl).
    destruct l as [|y l'].
    + simpl in Hc, Ht. rewrite Hc, Ht, Hs1. simpl.
      by replace (brk s + (HEADER_SIZE + sz)) with (brk s + HEADER_SIZE + sz) by lia.
    + assert (head s ≠ NULL) as Hh by (simpl in Hc; destruct Hc as (-> & ? & _); done).
      assert (tail s ∈ y :: l' ∧ tail s ≠ NULL) as [Hin Ht'].
      { destruct (y :: l') as [|t l0 _] using rev_ind; [done|].
        rewrite last_snoc in Ht. simpl in Ht. rewrite Ht. split.
        - apply elem_of_app. right. left.
        - by apply chain_app in Hc as (r & _ & _ & ? & _). }
      destruct (Htl Ht') as [ht Hht].
      assert (tail s ≠ block) as Hne.
      { rewrite Forall_forall in Hbelow. specialize (Hbelow _ Hin).
        unfold HEADER_SIZE in *. lia. }
      exists ht. split; [done|]. split; [done|].
      destruct (Z.eqb_spec (head s) NULL); [done|].
      destruct (Z.eqb_spec (tail s) NULL); [done|].
      rewrite Hs1. simpl.
      replace (brk s + (HEADER_SIZE + sz)) with (brk s + HEADER_SIZE + sz) by lia.
      do 3 f_equal.
      change {| size := size ht; is_free := is_free ht; next := block |}
        with (set_next block ht).
      symmetry. apply insert_alter_Some. by rewrite lookup_insert_ne.
Qed.

(** X19. Growth on a well-formed state, for a request whose total
    size does not wrap and that no block of the list satisfies.  If
    the break cannot rise by [HEADER_SIZE + sz], [mmalloc] returns
    [NULL] and changes nothing.  Otherwise it returns the address
    right after the old break; the break has moved up by
    [HEADER_SIZE + sz]; the header at the old break is
    [(sz, not free, NULL)] and is the new [tail]; if the list was
    empty it is also the new [head]; otherwise [head] stays and the
    old tail header, with its size and flag as they were, has [next]
    set to the new header.  No other header and no payload byte
    changes, and the state is well formed again, the new block being
    the last of the list. *)
Theorem growth_appends_a_block (fuel : nat) (sz : Z) (s : state) (l : list Z) :
  wf s l → no_fit (hdrs s) sz l → 0 < sz → HEADER_SIZE + sz < half_modulus →
  (length l <= fuel)%nat →
  (max_brk s < brk s + HEADER_SIZE + sz → mmalloc fuel sz s = Done (NULL, s)) ∧
  (brk s + HEADER_SIZE + sz <= max_brk s →
   ∃ s',
     mmalloc fuel sz s = Done (brk s + HEADER_SIZE, s') ∧
     wf s' (l ++ [brk s]) ∧
     match l with
     | [] =>
         s' = {| head := brk s; tail := brk s;
                 min_brk := min_brk s; brk := brk s + HEADER_SIZE + sz;
                 max_brk := max_brk s;
                 hdrs := <[brk s := {| size := sz; is_free := false;
                                       next := NULL |}]> (hdrs s);
                 bytes := bytes s |}
     | _ :: _ =>
         ∃ ht, hdrs s !! tail s = Some ht ∧ tail s ∈ l ∧
           s' = {| head := head s; tail := brk s;
                   min_brk := min_brk s; brk := brk s + HEADER_SIZE + sz;
                   max_brk := max_brk s;
                   hdrs := <[tail s := {| size := size ht; is_free := is_free ht;
                                          next := brk s |}]>
                             (<[brk s := {| size := sz; is_free := false;
                                            next := NULL |}]> (hdrs s));
                   bytes := bytes s |}
     end).
Proof.
  intros Hwf Hall Hsz Hfit Hfuel.
  pose proof (wf_brk_range _ _ Hwf) as Hbr.
  pose proof (wf_chain _ _ Hwf) as Hc.
  assert (tail s = default NULL (last l)) as Ht by by destruct Hwf.
  assert (Forall (λ x, x + HEADER_SIZE <= brk s) l) as Hbelow.
  { apply Forall_forall. intros x Hx.
    destruct (wf_block _ _ _ Hwf Hx) as (? & _ & ? & _ & ?). lia. }
  assert (0 <= HEADER_SIZE + sz < half_modulus) as Hn
    by (unfold HEADER_SIZE in *; lia).
  split.
  - intros Hfull.
    apply (mmalloc_grow_below_break fuel sz s l SBRK_FAILED s); try done.
    apply sbrk_refuse; [done|lia].
  - intros Hroom.
    assert (sbrk (HEADER_SIZE + sz) s
            = (brk s, set_brk (brk s + (HEADER_SIZE + sz)) s)) as Hs.
    { apply sbrk_grow; [done|lia..]. }
    assert (brk s ≠ SBRK_FAILED) as Hok.
    { unfold SBRK_FAILED. rewrite modulus_eq, half_modulus_eq in *. lia. }
    destruct (mmalloc_grow_below_break fuel sz s l _ _ Hsz Hfit Hc Ht Hbelow
                Hall Hfuel Hs) as [_ H].
    destruct (H Hok) as [_ H'].
    assert (payload (brk s) = brk s + HEADER_SIZE) as Hp
      by (apply payload_small; lia).
    destruct (mmalloc_wf fuel sz s l Hwf Hsz Hfit Hfuel) as
      [(_ & ? & _)|[(l1 & x & l2 & h & -> & _ & Hh & Hf & _)
                   |(_ & _ & s' & E & Hwf' & _)]]; [lia| |].
    + rewrite Forall_forall in Hall.
      rewrite (Hall x) in Hf; [done| |done]. apply elem_of_app. right. left.
    + exists s'. split; [done|]. split; [done|].
      destruct l as [|y l'].
      * rewrite Hp, E in H'. by injection H' as ->.
      * destruct H' as (ht & Hht & _ & E').
        exists ht. split; [done|]. split.
        { rewrite Ht.
          destruct (exists_last (l := y :: l')) as (l0 & t & ->); [done|].
          rewrite last_snoc. simpl. apply elem_of_app. right. left. }
        rewrite Hp, E in E'. by injection E' as ->.
Qed.

Lemma growth_appends_a_block_witness :
  wf abc_state [4096; 4124; 4156] ∧
  hdrs abc_state !! 4156 = Some {| size := 1; is_free := false; next := NULL |} ∧
  mmalloc 3 10 abc_state
  = Done (4205,
          {| head := 4096; tail := 4181; min_brk := 4096; brk := 4215;
             max_brk := 1048576;
             hdrs := <[4156 := {| size := 1; is_free := false; next := 4181 |}]>
                       (<[4181 := {| size := 10; is_free := false;
                                     next := NULL |}]> (hdrs abc_state));
             bytes := ∅ |}).
Proof.
  split; [exact wf_abc_state|]. split; [reflexivity|].
  destruct (growth_appends_a_block 3 10 abc_state [4096; 4124; 4156]
              wf_abc_state) as [_ H].
  - repeat constructor; intros hy Hy; vm_compute in Hy;
      injection Hy as <-; reflexivity.
  - lia.
  - rewrite half_modulus_eq. unfold HEADER_SIZE. lia.
  - simpl. lia.
  - destruct H as (s' & E & _ & ht & Hht & _ & ->).
    + unfold HEADER_SIZE. simpl. lia.
    + assert (ht = {| size := 1; is_free := false; next := NULL |}) as ->.
      { vm_compute in Hht. injection Hht as <-. reflexivity. }
      exact E.
Defined.

(** ** Release *)

(** X20. In a well-formed state let [x] be the header of a block of
    the list and [block] its payload address.  [ffree(block)] compares
    [block + size] with the current break.  If they are equal, [x] is
    the tail; when it is also the head, [head] and [tail] become
    [NULL]; otherwise the node [pred] in front of it, with its size and
    flag as they were, gets [next = NULL] and becomes [tail]; in both
    cases the break goes down by [HEADER_SIZE + size], nothing else
    changes, and the list that remains is the old one without [x] —
    one block, not more.  If they differ, the only change is that the
    flag of [x] is set: its size and [next], the list and the break
    stay. *)
Theorem release_of_listed_block (fuel : nat) (s : state) (l : list Z) (x : Z)
    (h : header_t) :
  wf s l → x ∈ l → hdrs s !! x = Some h → (length l <= fuel)%nat →
  let block := payload x in
  let shrunk := brk s - (HEADER_SIZE + size h) in
  block ≠ NULL ∧ header_of block = x ∧ fst (sbrk 0 s) = brk s ∧
  if wrap (block + size h) =? brk s then
    tail s = x ∧
    (head s = tail s →
       let s' := {| head := NULL; tail := NULL; min_brk := min_brk s;
                    brk := shrunk; max_brk := max_brk s;
                    hdrs := hdrs s; bytes := bytes s |} in
       l = [x] ∧ ffree fuel block s = Done s' ∧ wf s' []) ∧
    (head s ≠ tail s →
       ∃ l1 pred hp,
         let s' := {| head := head s; tail := pred; min_brk := min_brk s;
                      brk := shrunk; max_brk := max_brk s;
                      hdrs := <[pred := {| size := size hp; is_free := is_free hp;
                                           next := NULL |}]> (hdrs s);
                      bytes := bytes s |} in
         l = l1 ++ [pred; x] ∧ hdrs s !! pred = Some hp ∧ next hp = x ∧
         ffree fuel block s = Done s' ∧ wf s' (l1 ++ [pred]))
  else
    ffree fuel block s
    = Done {| head := head s; tail := tail s; min_brk := min_brk s;
              brk := brk s; max_brk := max_brk s;
              hdrs := <[x := {| size := size h; is_free := true;
                                next := next h |}]> (hdrs s);
              bytes := bytes s |}.
Proof.
  intros Hwf Hx Hh Hfuel block shrunk.
  destruct (wf_addr _ _ _ Hwf Hx) as [Hr _].
  pose proof (wf_brk_range _ _ Hwf) as Hbr.
  destruct (ffree_test_wf _ _ _ _ Hwf Hx Hh) as [Hw Hlast].
  split. { unfold block. rewrite payload_small by lia. unfold HEADER_SIZE, NULL. lia. }
  split. { by apply header_of_payload; lia. }
  split. { rewrite sbrk_zero; [done|]. destruct Hwf. lia. }
  unfold block. rewrite Hw.
  destruct (Z.eqb_spec (x + HEADER_SIZE + size h) (brk s)) as [He|Hne];
    [|by eapply ffree_inner_wf].
  apply Hlast in He as (l0 & ->).
  assert (tail s = x) as Ht.
  { destruct Hwf. by rewrite wf_tail0, last_snoc. }
  split; [done|].
  destruct l0 as [|pred l1 _] using rev_ind.
  - simpl in Hwf. destruct (ffree_only_wf fuel _ _ _ Hwf Hh) as (E & Hwf' & Ex).
    unfold shrunk. rewrite <- Ex. split; [done|].
    intros Hne. destruct Hwf. simpl in *. destruct wf_seg0 as (E1 & _). congruence.
  - rewrite <- app_assoc in Hwf, Hfuel. simpl in Hwf, Hfuel.
    assert (pred ∈ l1 ++ [pred; x]) as Hp.
    { apply elem_of_app. right. left. }
    destruct (wf_block _ _ _ Hwf Hp) as (hp & Hhp & _).
    destruct (ffree_last_wf fuel _ _ _ _ _ _ Hwf Hh Hhp)
      as (E & Hwf' & Hn & Hne & _ & Ex).
    { rewrite length_app in Hfuel. simpl in Hfuel. lia. }
    split; [done|]. intros _. exists l1, pred, hp.
    rewrite <- app_assoc. simpl. unfold shrunk. rewrite <- Ex. done.
Qed.

Lemma release_of_listed_block_witness :
  wf abc_state [4096; 4124; 4156] ∧
  hdrs abc_state !! 4156 = Some {| size := 1; is_free := false; next := NULL |} ∧
  hdrs abc_state !! 4096 = Some {| size := 4; is_free := false; next := 4124 |} ∧
  ffree 3 4180 abc_state
  = Done {| head := 4096; tail := 4124; min_brk := 4096; brk := 4156;
            max_brk := 1048576;
            hdrs := <[4124 := {| size := 8; is_free := false; next := NULL |}]>
                      (hdrs abc_state);
            bytes := ∅ |} ∧
  ffree 3 4120 abc_state
  = Done {| head := 4096; tail := 4156; min_brk := 4096; brk := 4181;
            max_brk := 1048576;
            hdrs := <[4096 := {| size := 4; is_free := true; next := 4124 |}]>
                      (hdrs abc_state);
            bytes := ∅ |} ∧
  wf a_state [4096] ∧
  ffree 1 4120 a_state
  = Done {| head := NULL; tail := NULL; min_brk := 4096; brk := 4096;
            max_brk := 1048576; hdrs := hdrs a_state; bytes := ∅ |}.
Proof.
  assert (wf a_state [4096]) as Hwfa.
  { constructor; [reflexivity|reflexivity|simpl; lia| |reflexivity].
    simpl. unfold HEADER_SIZE.
    repeat split. eexists. split; [reflexivity|]. simpl. split; [lia|]. done. }
  split; [exact wf_abc_state|]. split; [reflexivity|]. split; [reflexivity|].
  split; [|split; [|split; [exact Hwfa|]]].
  - pose proof (release_of_listed_block 3 abc_state [4096; 4124; 4156] 4156
                  {| size := 1; is_free := false; next := NULL |} wf_abc_state)
      as H.
    destruct H as (_ & _ & _ & H).
    + apply elem_of_cons. right. apply elem_of_cons. right. apply list_elem_of_here.
    + reflexivity.
    + simpl. lia.
    + change (wrap (payload 4156 + 1) =? brk abc_state) with true in H.
      destruct H as (_ & _ & H).
      destruct H as (l1 & pred & hp & Hl & Hp & _ & E & _).
      * simpl. lia.
      * assert (pred = 4124) as ->.
        { destruct l1 as [|a [|b [|c [|d l1]]]]; simpl in Hl; congruence. }
        assert (hp = {| size := 8; is_free := false; next := 4156 |}) as ->.
        { vm_compute in Hp. congruence. }
        exact E.
  - pose proof (release_of_listed_block 3 abc_state [4096; 4124; 4156] 4096
                  {| size := 4; is_free := false; next := 4124 |} wf_abc_state)
      as H.
    destruct H as (_ & _ & _ & H).
    + apply list_elem_of_here.
    + reflexivity.
    + simpl. lia.
    + change (wrap (payload 4096 + 4) =? brk abc_state) with false in H.
      exact H.
  - pose proof (release_of_listed_block 1 a_state [4096] 4096
                  {| size := 4; is_free := false; next := NULL |} Hwfa)
      as H.
    destruct H as (_ & _ & _ & H).
    + apply list_elem_of_here.
    + reflexivity.
    + simpl. lia.
    + change (wrap (payload 4096 + 4) =? brk a_state) with true in H.
      destruct H as (_ & H & _).
      destruct H as (_ & E & _); [reflexivity|].
      exact E.
Defined.

(** ** Resize *)

(** C6. In a well-formed state, let [x] head a block of the list whose
    size is below the requested one.  If the [mmalloc] inside
    [rrealloc] returns [NULL], [rrealloc] returns [NULL] and the state
    is exactly the one before the call: the old header with its size
    and flag, every payload byte and the list are untouched, and
    [ffree] was not called. *)
Theorem resize_failure_keeps_block (fuel : nat) (s : state) (l : list Z)
    (x : Z) (h : header_t) (sz : Z) (s1 : state) :
  wf s l → x ∈ l → hdrs s !! x = Some h → size h < sz →
  mmalloc fuel sz s = Done (NULL, s1) →
  rrealloc fuel (payload x) sz s = Done (NULL, s).
Proof.
  intros Hwf Hx Hh Hlt Hm.
  destruct (wf_addr _ _ _ Hwf Hx) as [Hr _].
  destruct (wf_block _ _ _ Hwf Hx) as (h' & Hh' & Hs & _).
  rewrite Hh in Hh'. injection Hh' as <-.
  pose proof (mmalloc_NULL_wf _ _ _ _ _ Hwf Hm) as ->.
  unfold rrealloc.
  rewrite payload_eqb_NULL by lia.
  destruct (Z.eqb_spec sz 0); [lia|]. simpl.
  rewrite header_of_payload by lia.
  rewrite (load_Some _ _ _ Hh), bind_Done.
  destruct (Z.leb_spec sz (size h)); [lia|].
  by rewrite Hm.
Qed.

Lemma wf_full_state : wf full_state [4096].
Proof.
  constructor; [reflexivity|reflexivity|simpl; lia| |reflexivity].
  simpl. unfold HEADER_SIZE.
  repeat split. eexists. split; [reflexivity|]. simpl. split; [lia|]. done.
Defined.

Lemma resize_failure_keeps_block_witness :
  wf full_state [4096] ∧
  hdrs full_state !! 4096 = Some {| size := 4; is_free := false; next := NULL |} ∧
  mmalloc 1 10 full_state = Done (NULL, full_state) ∧
  rrealloc 1 4120 10 full_state = Done (NULL, full_state).
Proof.
  split; [exact wf_full_state|]. split; [reflexivity|]. split; [reflexivity|].
  refine (resize_failure_keeps_block 1 full_state [4096] 4096
            {| size := 4; is_free := false; next := NULL |} 10 full_state
            wf_full_state _ _ _ _).
  - apply list_elem_of_here.
  - reflexivity.
  - simpl. lia.
  - reflexivity.
Defined.



(** * Requests whose total size wraps

    [mmalloc] adds [sizeof(struct header_t)] to the requested size
    without the overflow check that [ccalloc] makes for its product.
    For the 24 largest sizes the sum wraps to a number below 24, the
    arena grows by less than a header, and the header written at the
    old break claims [size] bytes. *)

(** C1 at the failing input.  In a fresh process [mmalloc(2^64 - 1)]
    succeeds: it returns 4120 while the arena now ends at 4119, so not
    one of the promised bytes lies inside the arena.  And after
    [mmalloc(8)], [mmalloc(2^64 - 24)], the call [mmalloc(1)] returns
    the very address the second call returned, while that block is
    still live. *)
Theorem huge_request_is_granted :
  (∃ s, mmalloc 0 (modulus - 1) fresh_process = Done (4120, s) ∧
        brk s = 4119 ∧
        hdrs s !! 4096
        = Some {| size := modulus - 1; is_free := false; next := NULL |} ∧
        ¬ in_arena s 4120 1) ∧
  (∃ s, run 2 [Mmalloc 8; Mmalloc (modulus - 24); Mmalloc 1] fresh_process
        = Done ([4120; 4152; 4152], s)).
Proof.
  split.
  - eexists. split; [vm_compute; reflexivity|].
    split; [reflexivity|]. split; [reflexivity|].
    unfold in_arena. simpl. lia.
  - eexists. vm_compute. reflexivity.
Qed.

(** C3 at the failing input.  In a fresh process [mmalloc(2^64 - 1)]
    finds no free block and takes the growth path.  The growth it asks
    of [sbrk] is [sizeof(struct header_t) + size] reduced modulo
    [2^64]: 23 bytes, which is not the header plus the size, and not
    even the header.  The header it writes at the old break, 4096,
    claims [2^64 - 1] bytes and ends at 4120, past the new break 4119;
    the next growth is handed 4119 by [sbrk] and builds its header
    there, on the last byte of this one.
    After [mmalloc(8)], [mmalloc(2^64 - 24)], whose growth request
    wrapped to 0, the tail header sits at the break.  [mmalloc(1)] then
    writes its header over that tail, and the store into [tail->next],
    which should link the old tail to the new header, goes into the
    new header itself: the header at the returned address ends with
    [next] pointing at itself instead of [NULL], and the header of the
    old tail, a live block, no longer exists. *)
Theorem growth_request_wraps :
  (let s1 := {| head := 4096; tail := 4096; min_brk := 4096; brk := 4119;
                max_brk := 1048576;
                hdrs := <[4096 := {| size := modulus - 1; is_free := false;
                                     next := NULL |}]> ∅;
                bytes := ∅ |} in
   get_free_block 0 (modulus - 1) fresh_process = Done NULL ∧
   wrap (HEADER_SIZE + (modulus - 1)) = 23 ∧
   sbrk (wrap (HEADER_SIZE + (modulus - 1))) fresh_process
   = (4096, set_brk 4119 fresh_process) ∧
   mmalloc 0 (modulus - 1) fresh_process = Done (4120, s1) ∧
   brk s1 < 4096 + HEADER_SIZE ∧
   get_free_block 1 1 s1 = Done NULL ∧
   fst (sbrk (wrap (HEADER_SIZE + 1)) s1) = 4119 ∧
   tail s1 < 4119 < tail s1 + HEADER_SIZE) ∧
  (run 2 [Mmalloc 8; Mmalloc (modulus - 24)] fresh_process
   = Done ([4120; 4152], lapped_state) ∧
   wrap (HEADER_SIZE + (modulus - 24)) = 0 ∧
   tail lapped_state = brk lapped_state ∧
   hdrs lapped_state !! 4128
   = Some {| size := modulus - 24; is_free := false; next := NULL |} ∧
   sbrk (wrap (HEADER_SIZE + 1)) lapped_state
   = (4128, set_brk 4153 lapped_state) ∧
   mmalloc 2 1 lapped_state
   = Done (4152,
           {| head := 4096; tail := 4128; min_brk := 4096; brk := 4153;
              max_brk := 1048576;
              hdrs := <[4128 := {| size := 1; is_free := false; next := 4128 |}]>
                        (hdrs lapped_state);
              bytes := ∅ |})).
Proof.
  split.
  - cbv zeta. split; [reflexivity|]. split; [reflexivity|].
    split; [reflexivity|]. split; [vm_compute; reflexivity|].
    split; [unfold HEADER_SIZE; simpl; lia|]. split; [reflexivity|].
    split; [reflexivity|]. unfold HEADER_SIZE. simpl. lia.
  - split; [vm_compute; reflexivity|]. split; [reflexivity|].
    split; [reflexivity|]. split; [reflexivity|]. split; [reflexivity|].
    vm_compute. reflexivity.
Qed.

Lemma search_spins fuel :
  get_free_block_from fuel (hdrs cyclic_state) 4128 1 = Timeout.
Proof.
  induction fuel as [|fuel IH]; [done|].
  change (get_free_block_from (S fuel) (hdrs cyclic_state) 4128 1)
    with (get_free_block_from fuel (hdrs cyclic_state) 4128 1).
  exact IH.
Qed.

(** C9 at the failing input.  [mmalloc(8)], [mmalloc(2^64 - 24)],
    [mmalloc(1)] in a fresh process end in a state whose tail is its
    own successor: the list is cyclic and [tail->next] is not [NULL].
    From then on a search that finds no free block never ends:
    [mmalloc(1)] runs out of every amount of fuel. *)
Theorem wrapped_request_ties_a_knot :
  run 2 [Mmalloc 8; Mmalloc (modulus - 24)] fresh_process
  = Done ([4120; 4152], lapped_state) ∧
  chain (hdrs lapped_state) (head lapped_state) [4096; 4128] NULL ∧
  mmalloc 2 1 lapped_state = Done (4152, cyclic_state) ∧
  tail cyclic_state = 4128 ∧
  hdrs cyclic_state !! 4128
  = Some {| size := 1; is_free := false; next := 4128 |} ∧
  ∀ fuel, mmalloc fuel 1 cyclic_state = Timeout.
Proof.
  split; [vm_compute; reflexivity|]. split.
  { simpl. unfold NULL. repeat split; try lia.
    eexists. split; [reflexivity|]. repeat split; try lia.
    eexists. split; reflexivity. }
  split; [vm_compute; reflexivity|].
  split; [reflexivity|]. split; [reflexivity|].
  intros fuel. unfold mmalloc, get_free_block.
  change (1 =? 0) with false. cbv iota.
  destruct fuel as [|fuel]; [done|].
  change (get_free_block_from (S fuel) (hdrs cyclic_state) (head cyclic_state) 1)
    with (get_free_block_from fuel (hdrs cyclic_state) 4128 1).
  by rewrite search_spins.
Qed.

(** C10 at the failing input.  After [mmalloc(8)] and
    [mmalloc(2^64 - 24)] the tail is the header at 4128, and
    [tail + HEADER_SIZE + tail->size] is [2^64] past the break.  The
    test of [ffree] holds for the first block, 4120, which is not the
    tail; [ffree(4120)] unlinks the tail, a live block that nobody
    released, keeps the block it was asked to release in the list as
    not free, and moves the break down to 4096, below both. *)
Theorem release_test_matches_inner_block :
  run 2 [Mmalloc 8; Mmalloc (modulus - 24)] fresh_process
  = Done ([4120; 4152], lapped_state) ∧
  tail lapped_state = 4128 ∧ header_of 4120 = 4096 ∧
  hdrs lapped_state !! 4128
  = Some {| size := modulus - 24; is_free := false; next := NULL |} ∧
  4128 + HEADER_SIZE + (modulus - 24) ≠ brk lapped_state ∧
  wrap (4120 + 8) = brk lapped_state ∧
  ffree 2 4120 lapped_state
  = Done {| head := 4096; tail := 4096; min_brk := 4096; brk := 4096;
            max_brk := 1048576;
            hdrs := <[4096 := {| size := 8; is_free := false; next := NULL |}]>
                    (hdrs lapped_state);
            bytes := ∅ |}.
Proof.
  split; [vm_compute; reflexivity|].
  split; [reflexivity|]. split; [reflexivity|]. split; [reflexivity|].
  split; [vm_compute; lia|]. split; [reflexivity|].
  vm_compute. reflexivity.
Qed.

(** C4 at the failing input.  After [mmalloc(8)] and
    [mmalloc(2^64 - 24)] the list is 4096, 4128.  [ffree(4120)] names
    the first block, whose header 4096 has size 8; [4120 + 8] is the
    break, so the test for the physically last block holds for it.
    [head] and [tail] differ, and what the loop takes off the list is
    the tail, 4128: afterwards the list is 4096 alone, so the header
    that was to be removed is still on it, and still not free; the live
    block at 4128 is gone from the list; and the break, lowered by
    [HEADER_SIZE + 8], stands at 4096, in front of the block that
    stayed. *)
Theorem release_removes_another_header :
  run 2 [Mmalloc 8; Mmalloc (modulus - 24)] fresh_process
  = Done ([4120; 4152], lapped_state) ∧
  chain (hdrs lapped_state) (head lapped_state) [4096; 4128] NULL ∧
  header_of 4120 = 4096 ∧
  hdrs lapped_state !! 4096
  = Some {| size := 8; is_free := false; next := 4128 |} ∧
  wrap (4120 + 8) = fst (sbrk 0 lapped_state) ∧
  head lapped_state ≠ tail lapped_state ∧
  ∃ s', ffree 2 4120 lapped_state = Done s' ∧
        chain (hdrs s') (head s') [4096] NULL ∧
        tail s' = 4096 ∧
        hdrs s' !! 4096 = Some {| size := 8; is_free := false; next := NULL |} ∧
        brk s' = brk lapped_state - (HEADER_SIZE + 8) ∧
        brk s' = 4096.
Proof.
  split; [vm_compute; reflexivity|]. split.
  { simpl. unfold NULL. repeat split; try lia.
    eexists. split; [reflexivity|]. repeat split; try lia.
    eexists. split; reflexivity. }
  split; [reflexivity|]. split; [reflexivity|]. split; [reflexivity|].
  split; [simpl; lia|].
  eexists. split; [vm_compute; reflexivity|]. split.
  { simpl. unfold NULL. repeat split; try lia.
    eexists. split; reflexivity. }
  split; [reflexivity|]. split; [reflexivity|]. split; reflexivity.
Qed.

(** * Runs in which no size wraps

    As long as every request keeps [HEADER_SIZE + size] below [2^63]
    and every pointer passed in names a block of the list, the four
    operations return and keep the state well formed; on well-formed
    states the properties that fail above do hold. *)

Lemma mmalloc_keeps_wf fuel sz s l :
  wf s l → 0 <= sz → HEADER_SIZE + sz < half_modulus →
  (length l <= fuel)%nat →
  ∃ p s' l', mmalloc fuel sz s = Done (p, s') ∧ wf s' l' ∧
             (l' = l ∨ l' = l ++ [brk s]) ∧ bytes s' = bytes s.
Proof.
  intros Hwf Hsz Hfit Hfuel.
  destruct (decide (sz = 0)) as [->|Hne].
  { exists NULL, s, l. split; [done|]. split; [done|]. split; [by left|done]. }
  destruct (mmalloc_wf fuel sz s l Hwf) as
    [(_ & _ & E)|[(l1 & x & l2 & h & -> & _ & _ & _ & E & Hwf')
                 |(_ & _ & s' & E & Hwf' & _ & _ & Hb & _)]]; [lia|done..| | |].
  - exists NULL, s, l. split; [done|]. split; [done|]. split; [by left|done].
  - eexists _, _, _. split; [exact E|]. split; [done|]. split; [by left|done].
  - eexists _, _, _. split; [exact E|]. split; [done|]. split; [by right|done].
Qed.

Lemma ccalloc_keeps_wf fuel num nsize s l :
  wf s l → 0 <= num < modulus → 0 <= nsize < modulus →
  (num * nsize < modulus → HEADER_SIZE + num * nsize < half_modulus) →
  (length l <= fuel)%nat →
  ∃ p s' l', ccalloc fuel num nsize s = Done (p, s') ∧ wf s' l' ∧
             (l' = l ∨ l' = l ++ [brk s]).
Proof.
  intros Hwf Hn Hk Hfit Hfuel. unfold ccalloc.
  destruct (Z.eqb_spec num 0); simpl.
  { exists NULL, s, l. split; [done|]. split; [done|]. by left. }
  destruct (Z.eqb_spec nsize 0); simpl.
  { exists NULL, s, l. split; [done|]. split; [done|]. by left. }
  destruct (mul_overflows num nsize) eqn:Hov.
  { exists NULL, s, l. split; [done|]. split; [done|]. by left. }
  assert (num * nsize < modulus) as Hlt.
  { destruct (Z_lt_ge_dec (num * nsize) modulus) as [|Hge]; [done|].
    assert (mul_overflows num nsize = true); [|congruence].
    apply mul_overflows_iff; lia. }
  rewrite wrap_small by nia.
  destruct (mmalloc_keeps_wf fuel (num * nsize) s l Hwf)
    as (p & s' & l' & E & Hwf' & Hl & _); [nia|by apply Hfit|done|].
  rewrite E, bind_Done. destruct (p =? NULL).
  - by exists NULL, s', l'.
  - eexists p, _, l'. split; [done|]. split; [|done]. by apply wf_set_bytes.
Qed.

Lemma rrealloc_keeps_wf fuel x sz s l :
  wf s l → x ∈ l → 0 <= sz → HEADER_SIZE + sz < half_modulus →
  (length l <= fuel)%nat →
  ∃ p s' l', rrealloc fuel (payload x) sz s = Done (p, s') ∧ wf s' l' ∧
             (length l' <= S (length l))%nat.
Proof.
  intros Hwf Hx Hsz Hfit Hfuel.
  destruct (wf_addr _ _ _ Hwf Hx) as [Hr _].
  destruct (wf_block _ _ _ Hwf Hx) as (h & Hh & _).
  unfold rrealloc.
  rewrite payload_eqb_NULL by lia.
  destruct (Z.eqb_spec sz 0) as [->|Hne]; simpl.
  { exists NULL, s, l. split; [done|]. split; [done|]. lia. }
  rewrite header_of_payload by lia.
  rewrite (load_Some _ _ _ Hh), bind_Done.
  destruct (sz <=? size h).
  { eexists _, s, l. split; [done|]. split; [done|]. lia. }
  destruct (mmalloc_keeps_wf fuel sz s l Hwf Hsz Hfit Hfuel)
    as (p & s1 & l1 & E & Hwf1 & Hl1 & _).
  rewrite E, bind_Done. destruct (p =? NULL); simpl.
  { exists p, s1, l1. split; [done|]. split; [done|].
    destruct Hl1 as [->| ->]; rewrite ?length_app; simpl; lia. }
  assert (x ∈ l1) as Hx1.
  { destruct Hl1 as [->| ->]; [done|]. apply elem_of_app. by left. }
  destruct (wf_block _ _ _ Hwf1 Hx1) as (h1 & Hh1 & _).
  rewrite (load_Some _ _ _ Hh1), bind_Done.
  set (s2 := set_bytes _ s1).
  assert (wf s2 l1) as Hwf2 by by apply wf_set_bytes.
  destruct Hl1 as [->| ->].
  - destruct (ffree_wf fuel s2 l x Hwf2 Hx Hfuel) as (s3 & l3 & E3 & Hwf3 & Hl3 & _).
    rewrite E3, bind_Done. exists p, s3, l3. split; [done|]. split; [done|].
    destruct Hl3 as [->| ->]; rewrite ?length_app; simpl; lia.
  - assert (x + HEADER_SIZE + size h1 ≠ brk s2) as Hne2.
    { intros He. apply (ffree_test_wf _ _ _ _ Hwf2 Hx1 Hh1) in He as (l0 & El).
      apply app_inj_tail in El as [_ <-].
      destruct Hwf. by apply seg_fresh with (b := brk s) in wf_seg0. }
    rewrite (ffree_inner_wf fuel _ _ _ _ Hwf2 Hx1 Hh1 Hne2), bind_Done.
    eexists p, _, _. split; [done|]. split; [by apply wf_store_flag|].
    rewrite length_app. simpl. lia.
Qed.

(** Every valid call returns and keeps the state well formed. *)
Theorem step_keeps_wf (fuel : nat) (o : op) (s : state) (l : list Z) :
  wf s l → valid_op l o → (length l <= fuel)%nat →
  ∃ p s' l', step fuel o s = Done (p, s') ∧ wf s' l' ∧
             (length l' <= S (length l))%nat.
Proof.
  intros Hwf Hv Hfuel. destruct o as [sz|block|num nsize|block sz]; simpl in *.
  - destruct Hv as [Hsz Hfit].
    destruct (mmalloc_keeps_wf fuel sz s l Hwf Hsz Hfit Hfuel)
      as (p & s' & l' & E & Hwf' & Hl & _).
    exists p, s', l'. split; [done|]. split; [done|].
    destruct Hl as [->| ->]; rewrite ?length_app; simpl; lia.
  - destruct Hv as [->|(x & Hx & ->)].
    + exists NULL, s, l. split; [done|]. split; [done|]. lia.
    + destruct (ffree_wf fuel s l x Hwf Hx Hfuel) as (s' & l' & E & Hwf' & Hl & _).
      rewrite E. exists NULL, s', l'. split; [done|]. split; [done|].
      destruct Hl as [->| ->]; rewrite ?length_app; simpl; lia.
  - destruct Hv as (Hn & Hk & Hfit).
    destruct (ccalloc_keeps_wf fuel num nsize s l Hwf Hn Hk Hfit Hfuel)
      as (p & s' & l' & E & Hwf' & Hl).
    exists p, s', l'. split; [done|]. split; [done|].
    destruct Hl as [->| ->]; rewrite ?length_app; simpl; lia.
  - destruct Hv as (Hsz & Hfit & [->|(x & Hx & ->)]).
    + change (rrealloc fuel NULL sz s) with (mmalloc fuel sz s).
      destruct (mmalloc_keeps_wf fuel sz s l Hwf Hsz Hfit Hfuel)
        as (p & s' & l' & E & Hwf' & Hl & _).
      exists p, s', l'. split; [done|]. split; [done|].
      destruct Hl as [->| ->]; rewrite ?length_app; simpl; lia.
    + by apply rrealloc_keeps_wf.
Qed.

(** Every state reached without a wrapping size is well formed. *)
Theorem safe_run_wf (s : state) : safe_run s → ∃ l, wf s l.
Proof.
  induction 1 as [lo hi Hlo Hle Hhi|s l fuel o p s' _ _ Hwf Hv Hfuel E].
  - exists []. by apply wf_init.
  - destruct (step_keeps_wf fuel o s l Hwf Hv Hfuel) as (p' & s'' & l' & E' & Hwf' & _).
    rewrite E in E'. injection E' as <- <-. by exists l'.
Qed.

(** On a well-formed state the list is finite and acyclic, ends at
    [NULL] after [tail], and [head] is [NULL] exactly when [tail] is. *)
Theorem wf_list_shape (s : state) (l : list Z) :
  wf s l →
  chain (hdrs s) (head s) l NULL ∧ NoDup l ∧
  tail s = default NULL (last l) ∧
  (tail s ≠ NULL → ∃ h, hdrs s !! tail s = Some h ∧ next h = NULL) ∧
  (head s = NULL ↔ tail s = NULL).
Proof.
  intros Hwf. split; [by apply wf_chain|].
  split; [destruct Hwf; by eapply seg_NoDup|].
  split; [by destruct Hwf|]. split; [|by eapply wf_head_tail].
  intros Hne. destruct Hwf.
  destruct l as [|t l0 _] using rev_ind; [done|].
  rewrite last_snoc in wf_tail0. simpl in wf_tail0. subst t.
  apply seg_snoc in wf_seg0 as (h & _ & Hh & _ & Hn & _). by exists h.
Qed.

(** On a well-formed state the tail block ends at the break, and the
    test of [ffree] holds for no other block of the list. *)
Theorem wf_tail_ends_arena (s : state) (l : list Z) :
  wf s l →
  (tail s ≠ NULL →
   ∃ h, hdrs s !! tail s = Some h ∧ tail s + HEADER_SIZE + size h = brk s) ∧
  (∀ x h, x ∈ l → hdrs s !! x = Some h →
          wrap (payload x + size h) = brk s → x = tail s).
Proof.
  intros Hwf. split.
  - intros Hne. destruct Hwf.
    destruct l as [|t l0 _] using rev_ind; [done|].
    rewrite last_snoc in wf_tail0. simpl in wf_tail0. subst t.
    apply seg_snoc in wf_seg0 as (h & _ & Hh & _ & _ & He). by exists h.
  - intros x h Hx Hh He.
    destruct (ffree_test_wf _ _ _ _ Hwf Hx Hh) as [Hw [Hl _]].
    rewrite Hw in He. destruct (Hl He) as (l0 & ->).
    destruct Hwf. by rewrite wf_tail0, last_snoc.
Qed.

(** On a well-formed state every block lies inside the arena and the
    payloads of different blocks do not overlap. *)
Lemma wf_payloads s l x h :
  wf s l → x ∈ l → hdrs s !! x = Some h →
  in_arena s (payload x) (size h) ∧
  ∀ y hy, y ∈ l → y ≠ x → hdrs s !! y = Some hy →
          disjoint_regions (payload x) (size h) (payload y) (size hy).
Proof.
  intros Hwf Hx Hh.
  destruct (wf_addr _ _ _ Hwf Hx) as [Hr _].
  destruct (wf_block _ _ _ Hwf Hx) as (h' & Hh' & Hs & Hlo & Hhi).
  rewrite Hh in Hh'. injection Hh' as <-.
  rewrite payload_small by lia. split.
  - unfold in_arena, HEADER_SIZE in *. lia.
  - intros y hy Hy Hne Hhy.
    destruct (wf_addr _ _ _ Hwf Hy) as [Hry _]. rewrite payload_small by lia.
    destruct (wf_block _ _ _ Hwf Hy) as (hy' & Hhy' & Hsy & _).
    rewrite Hhy in Hhy'. injection Hhy' as <-.
    destruct Hwf.
    destruct (seg_disjoint _ _ _ _ _ _ _ _ _ _ wf_seg0 Hx Hy (not_eq_sym Hne) Hh Hhy);
      unfold disjoint_regions, HEADER_SIZE in *; lia.
Qed.

(** X4. On a well-formed state a successful [mmalloc] of a size that
    does not wrap returns a block of at least that size, inside the
    arena, that was not live before and overlaps no other block. *)
Theorem mmalloc_safe (fuel : nat) (sz : Z) (s : state) (l : list Z)
    (p : Z) (s' : state) :
  wf s l → 0 < sz → HEADER_SIZE + sz < half_modulus →
  (length l <= fuel)%nat →
  mmalloc fuel sz s = Done (p, s') → p ≠ NULL →
  ∃ l' x h,
    wf s' l' ∧ x ∈ l' ∧ p = payload x ∧
    hdrs s' !! x = Some h ∧ is_free h = false ∧ sz <= size h ∧
    in_arena s' p (size h) ∧
    (∀ h0, x ∈ l → hdrs s !! x = Some h0 → is_free h0 = true) ∧
    (∀ y hy, y ∈ l' → y ≠ x → hdrs s' !! y = Some hy →
             disjoint_regions p (size h) (payload y) (size hy)).
Proof.
  intros Hwf Hsz Hfit Hfuel E Hp.
  pose proof (wf_brk_range _ _ Hwf) as Hbr.
  destruct (mmalloc_wf fuel sz s l Hwf Hsz Hfit Hfuel) as
    [(_ & _ & E')|[(l1 & x & l2 & h & -> & _ & Hh & Hf & E' & Hwf')
                  |(_ & _ & s1 & E' & Hwf' & Hh & _)]];
    rewrite E' in E; injection E as <- <-; [done| |].
  - apply andb_prop in Hf as [Hfree Hle%Z.leb_le].
    assert (x ∈ l1 ++ x :: l2) as Hx by (apply elem_of_app; right; left).
    destruct (wf_addr _ _ _ Hwf Hx) as [Hr _].
    assert (hdrs (store x (set_is_free false h) s) !! x
            = Some (set_is_free false h)) as Hh'.
    { simpl. by rewrite lookup_insert_eq. }
    destruct (wf_payloads _ _ _ _ Hwf' Hx Hh') as [Hin Hdis].
    exists (l1 ++ x :: l2), x, (set_is_free false h).
    rewrite <- payload_small by lia.
    split; [done|]. split; [done|]. split; [done|]. split; [done|].
    split; [done|]. split; [done|]. split; [done|]. split; [|done].
    intros h0 _ Hh0. rewrite Hh in Hh0. by injection Hh0 as <-.
  - assert (brk s ∈ l ++ [brk s]) as Hx by (apply elem_of_app; right; left).
    destruct (wf_payloads _ _ _ _ Hwf' Hx Hh) as [Hin Hdis].
    eexists (l ++ [brk s]), (brk s), _.
    rewrite <- payload_small by lia.
    split; [done|]. split; [done|]. split; [done|]. split; [exact Hh|].
    split; [done|]. split; [simpl; lia|]. split; [done|]. split; [|done].
    intros h0 Hin0 _. destruct Hwf.
    by apply seg_fresh with (b := brk s) in wf_seg0.
Qed.

(** * Further properties of the operations *)

(** ** Headers that a call leaves alone *)

Lemma update_frame a f s s' y h :
  (∀ g, size (f g) = size g) →
  update a f s = Done s' → hdrs s !! y = Some h →
  ∃ h', hdrs s' !! y = Some h' ∧ size h' = size h ∧ (y ≠ a → h' = h).
Proof.
  intros Hf. unfold update, load.
  destruct (hdrs s !! a) as [g|] eqn:Hg; [|done]. intros [= <-] Hy. simpl.
  destruct (decide (a = y)) as [->|Hne].
  - rewrite lookup_insert_eq. rewrite Hg in Hy. injection Hy as <-.
    exists (f g). by rewrite Hf.
  - rewrite lookup_insert_ne by done. exists h. by rewrite Hy.
Qed.

Lemma ffree_unlink_frame fuel curr s s' y h :
  ffree_unlink fuel curr s = Done s' → hdrs s !! y = Some h →
  ∃ h', hdrs s' !! y = Some h' ∧ size h' = size h ∧ is_free h' = is_free h.
Proof.
  revert curr s h. induction fuel as [|fuel IH]; intros curr s h; simpl.
  - destruct (curr =? NULL); [|done]. intros [= <-] Hy. by exists h.
  - destruct (curr =? NULL); [intros [= <-] Hy; by exists h|].
    destruct (load curr s) as [g| |]; [|done..]. rewrite bind_Done.
    destruct (next g =? tail s).
    + destruct (update curr (set_next NULL) s) as [s1| |] eqn:E; [|done..].
      rewrite !bind_Done.
      destruct (load curr _) as [g1| |]; [|done..]. rewrite bind_Done.
      intros Hu Hy.
      destruct (update_frame curr (set_next NULL) s s1 y h (λ _, eq_refl) E Hy)
        as (h1 & Hh1 & Hs1 & Hsame).
      assert (is_free h1 = is_free h) as Hf1.
      { destruct (decide (y = curr)) as [->|Hne]; [|by rewrite Hsame].
        unfold update, load in E. rewrite Hy in E. injection E as <-.
        simpl in Hh1. rewrite lookup_insert_eq in Hh1. by injection Hh1 as <-. }
      destruct (IH _ _ h1 Hu) as (h' & Hh' & Hs' & Hf'); [done|].
      exists h'. split; [done|]. split; congruence.
    + rewrite bind_Done. destruct (load curr s) as [g1| |]; [|done..].
      rewrite bind_Done. apply IH.
Qed.

Lemma mmalloc_grow_frame sz s p s' y h :
  mmalloc_grow sz s = Done (p, s') → hdrs s !! y = Some h → y ≠ brk s →
  ∃ h', hdrs s' !! y = Some h' ∧ size h' = size h ∧ is_free h' = is_free h.
Proof.
  unfold mmalloc_grow.
  destruct (sbrk_cases (wrap (HEADER_SIZE + sz)) s) as [E|(b & E & _)]; rewrite E.
  - rewrite Z.eqb_refl. intros [= _ <-] Hy _. by exists h.
  - destruct (_ =? SBRK_FAILED); [intros [= _ <-] Hy _; by exists h|].
    cbv zeta.
    set (s2 := store (brk s) _ (set_brk b s)).
    set (s3 := if head s2 =? NULL then set_head (brk s) s2 else s2).
    intros Hm Hy Hne.
    assert (hdrs s3 !! y = Some h) as Hy3.
    { unfold s3, s2. destruct (_ =? NULL); simpl; by rewrite lookup_insert_ne. }
    destruct (tail s3 =? NULL).
    + rewrite bind_Done in Hm. injection Hm as _ <-. by exists h.
    + destruct (update (tail s3) (set_next (brk s)) s3) as [s4| |] eqn:E4;
        [|done..].
      rewrite bind_Done in Hm. injection Hm as _ <-. simpl.
      destruct (update_frame (tail s3) (set_next (brk s)) s3 s4 y h
                  (λ _, eq_refl) E4 Hy3) as (h1 & Hh1 & Hs1 & Hsame).
      exists h1. split; [done|]. split; [done|].
      destruct (decide (y = tail s3)) as [Heq|Hne']; [|by rewrite Hsame].
      unfold update, load in E4. rewrite <- Heq, Hy3 in E4. injection E4 as <-.
      simpl in Hh1. rewrite lookup_insert_eq in Hh1. by injection Hh1 as <-.
Qed.

Lemma mmalloc_frame fuel sz s p s' y h :
  mmalloc fuel sz s = Done (p, s') → hdrs s !! y = Some h → y ≠ brk s →
  ∃ h', hdrs s' !! y = Some h' ∧ size h' = size h ∧
        (payload y ≠ p → is_free h' = is_free h).
Proof.
  unfold mmalloc. destruct (sz =? 0).
  { intros [= _ <-] Hy _. by exists h. }
  destruct (get_free_block fuel sz s) as [r| |]; [|done..]. rewrite bind_Done.
  destruct (negb _).
  - destruct (update r (set_is_free false) s) as [s1| |] eqn:E; [|done..].
    rewrite bind_Done. intros [= <- <-] Hy _.
    destruct (update_frame r (set_is_free false) s s1 y h (λ _, eq_refl) E Hy)
      as (h1 & Hh1 & Hs1 & Hsame).
    exists h1. split; [done|]. split; [done|]. intros Hp.
    rewrite Hsame; [done|]. by intros ->.
  - intros Hm Hy Hne.
    destruct (mmalloc_grow_frame _ _ _ _ _ _ Hm Hy Hne) as (h1 & ? & ? & ?).
    by exists h1.
Qed.

Lemma ffree_frame fuel block s s' y h :
  ffree fuel block s = Done s' → hdrs s !! y = Some h →
  ∃ h', hdrs s' !! y = Some h' ∧ size h' = size h ∧
        (y ≠ header_of block → is_free h' = is_free h).
Proof.
  unfold ffree. destruct (block =? NULL).
  { intros [= <-] Hy. by exists h. }
  destruct (load (header_of block) s) as [g| |]; [|done..]. rewrite bind_Done.
  destruct (_ =? _).
  - destruct (head s =? tail s).
    + rewrite bind_Done. destruct (load _ _) as [g1| |]; [|done..].
      rewrite bind_Done. intros [= <-] Hy. rewrite sbrk_hdrs. simpl.
      by exists h.
    + destruct (ffree_unlink fuel (head s) s) as [s1| |] eqn:E; [|done..].
      rewrite bind_Done. destruct (load _ _) as [g1| |]; [|done..].
      rewrite bind_Done. intros [= <-] Hy. rewrite sbrk_hdrs.
      destruct (ffree_unlink_frame _ _ _ _ _ _ E Hy) as (h1 & ? & ? & ?).
      by exists h1.
  - intros E Hy.
    destruct (update_frame (header_of block) (set_is_free true) s s' y h
                (λ _, eq_refl) E Hy) as (h1 & Hh1 & Hs1 & Hsame).
    exists h1. split; [done|]. split; [done|]. intros Hne. by rewrite Hsame.
Qed.

(** X10. On a well-formed state, neither an [mmalloc] whose total
    size does not wrap nor an [ffree] of a block of the list changes
    the size of a block of the list: blocks are not split and not
    merged.  Nor do they change the flag of any block of the list but
    the one [mmalloc] returns or [ffree] is given. *)
Theorem sizes_never_change :
  (∀ (fuel : nat) (sz : Z) (s : state) (l : list Z) (p : Z) (s' : state)
     (y : Z) (h : header_t),
     wf s l → y ∈ l → 0 <= sz → HEADER_SIZE + sz < half_modulus →
     mmalloc fuel sz s = Done (p, s') → hdrs s !! y = Some h →
     ∃ h', hdrs s' !! y = Some h' ∧ size h' = size h ∧
           (payload y ≠ p → is_free h' = is_free h)) ∧
  (∀ (fuel : nat) (s : state) (l : list Z) (x : Z) (s' : state) (y : Z)
     (h : header_t),
     wf s l → x ∈ l → y ∈ l →
     ffree fuel (payload x) s = Done s' → hdrs s !! y = Some h →
     ∃ h', hdrs s' !! y = Some h' ∧ size h' = size h ∧
           (y ≠ x → is_free h' = is_free h)).
Proof.
  split.
  - intros fuel sz s l p s' y h Hwf Hy _ _ E Hh.
    eapply mmalloc_frame; [done..|].
    destruct (wf_block _ _ _ Hwf Hy) as (? & _ & ? & _ & ?).
    unfold HEADER_SIZE in *. lia.
  - intros fuel s l x s' y h Hwf Hx Hy E Hh.
    destruct (wf_addr _ _ _ Hwf Hx) as [Hr _].
    destruct (ffree_frame _ _ _ _ _ _ E Hh) as (h' & Hh' & Hs & Hf).
    exists h'. split; [done|]. split; [done|].
    by rewrite header_of_payload in Hf by lia.
Qed.

Lemma sizes_never_change_witness :
  wf bc_state [4096; 4124; 4156] ∧
  mmalloc 3 2 bc_state = Done (4120, abc_state) ∧
  hdrs bc_state !! 4124 = Some {| size := 8; is_free := false; next := 4156 |} ∧
  (∃ h', hdrs abc_state !! 4124 = Some h' ∧ size h' = 8 ∧
         (payload 4124 ≠ 4120 → is_free h' = false)) ∧
  ∃ s', ffree 3 (payload 4096) abc_state = Done s' ∧
        ∃ h', hdrs s' !! 4124 = Some h' ∧ size h' = 8 ∧
              (4124 ≠ 4096 → is_free h' = false).
Proof.
  assert (wf bc_state [4096; 4124; 4156]) as Hwf.
  { apply (wf_store_flag abc_state _ 4096
             {| size := 4; is_free := false; next := 4124 |} true wf_abc_state).
    reflexivity. }
  split; [exact Hwf|]. split; [reflexivity|]. split; [reflexivity|]. split.
  - apply (proj1 sizes_never_change 3%nat 2 bc_state [4096; 4124; 4156] 4120
             abc_state 4124 {| size := 8; is_free := false; next := 4156 |} Hwf).
    + apply elem_of_cons. right. apply list_elem_of_here.
    + lia.
    + rewrite half_modulus_eq. unfold HEADER_SIZE. lia.
    + reflexivity.
    + reflexivity.
  - eexists. split; [vm_compute; reflexivity|].
    apply (proj2 sizes_never_change 3%nat abc_state [4096; 4124; 4156] 4096 _
             4124 {| size := 8; is_free := false; next := 4156 |} wf_abc_state).
    + apply list_elem_of_here.
    + apply elem_of_cons. right. apply list_elem_of_here.
    + vm_compute. reflexivity.
    + reflexivity.
Defined.

(** ** Zeroed allocation *)

Lemma memset_outside n p c m a :
  a < p ∨ p + Z.of_nat n <= a → memset n p c m !! a = m !! a.
Proof.
  revert p m. induction n as [|n IH]; intros p m Ha; simpl; [done|].
  rewrite IH by lia. apply lookup_insert_ne. lia.
Qed.

Lemma memset_inside n p c m i :
  0 <= i < Z.of_nat n → memset n p c m !! (p + i) = Some c.
Proof.
  revert p m i. induction n as [|n IH]; intros p m i Hi; [lia|]. simpl.
  destruct (decide (i = 0)) as [->|Hi0].
  - rewrite Z.add_0_r, memset_outside by lia. apply lookup_insert_eq.
  - replace (p + i) with (p + 1 + (i - 1)) by lia. apply IH. lia.
Qed.

(** X8. On a well-formed state, [ccalloc(num, nsize)] with
    [HEADER_SIZE + num * nsize] below [2^63] returns.  If it returns
    [NULL] the state is unchanged.  Otherwise it has allocated
    [num * nsize] bytes through [mmalloc] and changed no header; the
    state is well formed; the block is a live block of the list of at
    least [num * nsize] bytes, inside the arena; every one of its first
    [num * nsize] bytes reads 0, and no byte outside them has
    changed. *)
Theorem ccalloc_zero_fills (fuel : nat) (num nsize : Z) (s : state)
    (l : list Z) :
  wf s l → 0 <= num → 0 <= nsize →
  HEADER_SIZE + num * nsize < half_modulus → (length l <= fuel)%nat →
  ∃ block s',
    ccalloc fuel num nsize s = Done (block, s') ∧
    (block = NULL → s' = s) ∧
    (block ≠ NULL →
     (∃ s1, mmalloc fuel (num * nsize) s = Done (block, s1) ∧
            head s' = head s1 ∧ tail s' = tail s1 ∧ brk s' = brk s1 ∧
            hdrs s' = hdrs s1) ∧
     (∃ l' x h, wf s' l' ∧ block = payload x ∧ x ∈ l' ∧
                hdrs s' !! x = Some h ∧ is_free h = false ∧
                num * nsize <= size h ∧ in_arena s' block (size h)) ∧
     (∀ i, 0 <= i < num * nsize → bytes s' !! (block + i) = Some 0) ∧
     (∀ a, a < block ∨ block + num * nsize <= a →
           bytes s' !! a = bytes s !! a)).
Proof.
  intros Hwf Hn Hk Hfit Hfuel. unfold ccalloc.
  destruct (Z.eqb_spec num 0); simpl; [by exists NULL, s|].
  destruct (Z.eqb_spec nsize 0); simpl; [by exists NULL, s|].
  assert (0 < num * nsize) as Hpos by nia.
  assert (num * nsize < modulus) as Hlt.
  { unfold HEADER_SIZE in *. rewrite modulus_eq, half_modulus_eq in *. lia. }
  assert (mul_overflows num nsize = false) as ->.
  { destruct (mul_overflows num nsize) eqn:Hov; [|done].
    apply mul_overflows_iff in Hov; [lia|nia..]. }
  rewrite wrap_small by lia.
  pose proof (wf_brk_range _ _ Hwf) as Hbr.
  assert (∀ x h s1 l1,
            mmalloc fuel (num * nsize) s = Done (x + HEADER_SIZE, s1) →
            wf s1 l1 → x ∈ l1 →
            hdrs s1 !! x = Some h → is_free h = false → num * nsize <= size h →
            bytes s1 = bytes s →
            ∃ block s',
              ('(block, s1) ← mmalloc fuel (num * nsize) s;
               if block =? NULL then Done (NULL, s1)
               else Done (block,
                          set_bytes (memset (Z.to_nat (num * nsize)) block 0
                                       (bytes s1)) s1))
              = Done (block, s') ∧
              (block = NULL → s' = s) ∧
              (block ≠ NULL →
               (∃ s1, mmalloc fuel (num * nsize) s = Done (block, s1) ∧
                      head s' = head s1 ∧ tail s' = tail s1 ∧ brk s' = brk s1 ∧
                      hdrs s' = hdrs s1) ∧
               (∃ l' x h, wf s' l' ∧ block = payload x ∧ x ∈ l' ∧
                          hdrs s' !! x = Some h ∧ is_free h = false ∧
                          num * nsize <= size h ∧ in_arena s' block (size h)) ∧
               (∀ i, 0 <= i < num * nsize → bytes s' !! (block + i) = Some 0) ∧
               (∀ a, a < block ∨ block + num * nsize <= a →
                     bytes s' !! a = bytes s !! a))) as Hgot.
  { intros x h s1 l1 E Hwf1 Hx1 Hh1 Hlive Hle Hb.
    destruct (wf_addr _ _ _ Hwf1 Hx1) as [Hr _].
    destruct (wf_block _ _ _ Hwf1 Hx1) as (h' & Hh' & _ & Hlo & Hhi).
    rewrite Hh1 in Hh'. injection Hh' as <-.
    rewrite E, bind_Done.
    destruct (Z.eqb_spec (x + HEADER_SIZE) NULL) as [E0|_];
      [unfold HEADER_SIZE, NULL in *; lia|].
    eexists _, _. split; [done|].
    split; [unfold HEADER_SIZE, NULL; lia|]. intros _.
    split; [by exists s1|]. split.
    - eexists _, x, h. split; [by apply wf_set_bytes|].
      split; [by rewrite payload_small by lia|]. split; [done|].
      split; [done|]. split; [done|]. split; [done|].
      unfold in_arena. simpl. unfold HEADER_SIZE in *. lia.
    - simpl. rewrite Hb. split.
      + intros i Hi. apply memset_inside. rewrite Z2Nat.id by lia. done.
      + intros a Ha. apply memset_outside. rewrite Z2Nat.id by lia. done. }
  destruct (mmalloc_wf fuel (num * nsize) s l Hwf Hpos Hfit Hfuel) as
    [(_ & _ & E)|[(l1 & x & l2 & h & -> & _ & Hh & Hf & E & Hwf1)
                 |(_ & _ & s1 & E & Hwf1 & Hh1 & _ & Hb & _)]].
  - rewrite E, bind_Done. by exists NULL, s.
  - assert (x ∈ l1 ++ x :: l2) as Hx by (apply elem_of_app; right; left).
    apply andb_prop in Hf as [Hfree Hle%Z.leb_le].
    apply (Hgot x (set_is_free false h) _ _ E Hwf1 Hx).
    + simpl. by rewrite lookup_insert_eq.
    + done.
    + done.
    + done.
  - apply (Hgot (brk s) {| size := num * nsize; is_free := false; next := NULL |}
             _ _ E Hwf1).
    + apply elem_of_app. right. left.
    + done.
    + done.
    + simpl. lia.
    + done.
Qed.

Lemma ccalloc_zero_fills_witness :
  wf abc_state [4096; 4124; 4156] ∧
  ∃ s', ccalloc 3 2 3 abc_state = Done (4205, s') ∧
        bytes s' !! (4205 + 5) = Some 0 ∧
        hdrs s' !! 4181 = Some {| size := 6; is_free := false; next := NULL |}.
Proof.
  split; [exact wf_abc_state|].
  destruct (ccalloc_zero_fills 3 2 3 abc_state [4096; 4124; 4156] wf_abc_state)
    as (block & s' & E & _ & H).
  - lia.
  - lia.
  - rewrite half_modulus_eq. unfold HEADER_SIZE. lia.
  - simpl. lia.
  - assert (block = 4205 ∧
            hdrs s' !! 4181 = Some {| size := 6; is_free := false; next := NULL |})
      as [-> Hh].
    { vm_compute in E. by injection E as <- <-. }
    destruct H as (_ & _ & Hzero & _); [unfold NULL; lia|].
    exists s'. split; [exact E|]. split; [|exact Hh].
    apply Hzero. lia.
Defined.

(** ** The search and the failure of [mmalloc] *)

Lemma chain_abc_state :
  chain (hdrs abc_state) (head abc_state) [4096; 4124; 4156] NULL.
Proof. apply (wf_chain _ _ wf_abc_state). Qed.

(** X11. On a list that ends at [NULL], [get_free_block] answers: it
    returns [NULL] exactly when no node is free and large enough, and
    otherwise the first such node in list order; it never returns a
    node that is live or too small. *)
Theorem search_finds_first_or_nothing (fuel : nat) (sz : Z) (s : state)
    (l : list Z) :
  chain (hdrs s) (head s) l NULL → (length l <= fuel)%nat →
  ∃ r, get_free_block fuel sz s = Done r ∧
       (r = NULL ↔ no_fit (hdrs s) sz l) ∧
       (r ≠ NULL →
        ∃ l1 l2 h, l = l1 ++ r :: l2 ∧ hdrs s !! r = Some h ∧
                   is_free h = true ∧ sz <= size h ∧
                   no_fit (hdrs s) sz l1).
Proof.
  intros Hc Hfuel. unfold get_free_block.
  destruct (get_free_block_from_total fuel _ _ _ sz Hc Hfuel)
    as [(Hr & Hall)|(l1 & x & l2 & h & -> & Hh & Hf & Hx & Hall & Hr)].
  - exists NULL. split; [done|]. split; [done|]. done.
  - exists x. split; [done|]. split.
    + split; [done|]. intros Hno.
      apply Forall_app in Hno as [_ Hno]. apply Forall_cons in Hno as [Hno _].
      rewrite (Hno _ Hh) in Hf. discriminate Hf.
    + intros _. exists l1, l2, h. apply andb_prop in Hf as [Hfree Hle%Z.leb_le].
      done.
Qed.

Lemma search_finds_first_or_nothing_witness :
  chain (hdrs abc_state) (head abc_state) [4096; 4124; 4156] NULL ∧
  ∃ r, get_free_block 3 2 abc_state = Done r ∧
       (r = NULL ↔ no_fit (hdrs abc_state) 2 [4096; 4124; 4156]).
Proof.
  split; [exact chain_abc_state|].
  destruct (search_finds_first_or_nothing 3 2 abc_state [4096; 4124; 4156]
              chain_abc_state) as (r & E & Hiff & _).
  - simpl. lia.
  - exists r. split; [exact E|exact Hiff].
Defined.

(** X5. On a well-formed state a request that does not wrap always
    returns, and it returns [NULL] exactly when no block of the list
    fits and the break cannot rise by the header and the request; the
    state is then unchanged. *)
Theorem mmalloc_fails_only_without_room (fuel : nat) (sz : Z) (s : state)
    (l : list Z) :
  wf s l → 0 < sz → HEADER_SIZE + sz < half_modulus →
  (length l <= fuel)%nat →
  ∃ p s', mmalloc fuel sz s = Done (p, s') ∧
          (p = NULL ↔
           no_fit (hdrs s) sz l ∧ max_brk s < brk s + HEADER_SIZE + sz) ∧
          (p = NULL → s' = s).
Proof.
  intros Hwf Hsz Hfit Hfuel.
  pose proof (wf_brk_range _ _ Hwf) as Hbr.
  destruct (mmalloc_wf fuel sz s l Hwf Hsz Hfit Hfuel) as
    [(Hno & Hroom & E)|[(l1 & x & l2 & h & -> & _ & Hh & Hf & E & _)
                       |(Hno & Hroom & s' & E & _)]].
  - exists NULL, s. split; [done|]. split; [done|]. done.
  - assert (x ∈ l1 ++ x :: l2) as Hx by (apply elem_of_app; right; left).
    destruct (wf_addr _ _ _ Hwf Hx) as [Hr _].
    assert (x + HEADER_SIZE ≠ NULL) as Hp by (unfold HEADER_SIZE, NULL; lia).
    eexists _, _. split; [exact E|]. split; [|done].
    split; [done|]. intros [Hno _].
    apply Forall_app in Hno as [_ Hno]. apply Forall_cons in Hno as [Hno _].
    rewrite (Hno _ Hh) in Hf. discriminate Hf.
  - assert (brk s + HEADER_SIZE ≠ NULL) as Hp by (unfold HEADER_SIZE, NULL; lia).
    eexists _, _. split; [exact E|]. split; [|done].
    split; [done|]. intros [_ Hno']. lia.
Qed.

Lemma mmalloc_fails_only_without_room_witness :
  wf full_state [4096] ∧ 0 < 10 ∧ HEADER_SIZE + 10 < half_modulus ∧
  ∃ p s', mmalloc 1 10 full_state = Done (p, s') ∧
          (p = NULL ↔
           no_fit (hdrs full_state) 10 [4096] ∧
           max_brk full_state < brk full_state + HEADER_SIZE + 10).
Proof.
  assert (HEADER_SIZE + 10 < half_modulus) as Hb by reflexivity.
  split; [exact wf_full_state|]. split; [lia|]. split; [exact Hb|].
  destruct (mmalloc_fails_only_without_room 1 10 full_state [4096]
              wf_full_state) as (p & s' & E & Hiff & _).
  - lia.
  - exact Hb.
  - simpl. lia.
  - exists p, s'. split; [exact E|exact Hiff].
Defined.

(** ** Round trips *)

(** X6. Allocating a block at the break and releasing it at once gives
    the arena back: [head], [tail], the break and every header of the
    list are as before the allocation.  All that remains is the dead
    header in the released memory. *)
Theorem grow_then_release_restores (fuel : nat) (sz : Z) (s : state)
    (l : list Z) :
  wf s l → no_fit (hdrs s) sz l → 0 < sz → HEADER_SIZE + sz < half_modulus →
  brk s + HEADER_SIZE + sz <= max_brk s → (length l <= fuel)%nat →
  ∃ s1, mmalloc fuel sz s = Done (brk s + HEADER_SIZE, s1) ∧
        brk s1 = brk s + HEADER_SIZE + sz ∧
        ffree fuel (brk s + HEADER_SIZE) s1
        = Done (set_hdrs (<[brk s := {| size := sz; is_free := false;
                                        next := NULL |}]> (hdrs s)) s).
Proof.
  intros Hwf Hno Hsz Hfit Hroom Hfuel.
  pose proof (wf_brk_range _ _ Hwf) as Hbr.
  set (fresh := {| size := sz; is_free := false; next := NULL |}).
  assert (mmalloc fuel sz s = mmalloc_grow sz s) as Hm.
  { unfold mmalloc, get_free_block.
    rewrite (get_free_block_from_miss _ _ _ _ _ (wf_chain _ _ Hwf) Hno Hfuel).
    by destruct (Z.eqb_spec sz 0); [lia|]. }
  destruct (mmalloc_grow_wf sz s l Hwf Hsz Hfit Hroom)
    as (s1 & E1 & Hwf1 & Hh1 & Hb1 & _).
  assert (sbrk (wrap (HEADER_SIZE + sz)) s
          = (brk s, set_brk (brk s + (HEADER_SIZE + sz)) s)) as Hs.
  { rewrite wrap_small.
    - apply sbrk_grow; unfold HEADER_SIZE in *; lia.
    - unfold HEADER_SIZE in *. rewrite modulus_eq, half_modulus_eq in *. lia. }
  assert (brk s ≠ SBRK_FAILED) as Hnf.
  { unfold SBRK_FAILED. rewrite modulus_eq, half_modulus_eq in *. lia. }
  pose proof (mmalloc_grow_ok _ _ _ _ Hs Hnf (wf_tail_header _ _ Hwf)) as E2.
  rewrite E1 in E2. injection E2 as _ Es1. simpl in Es1.
  exists s1. rewrite Hm. split; [done|]. split; [done|].
  rewrite <- (payload_small (brk s)) by lia.
  destruct l as [|t l0 _] using rev_ind.
  - destruct (ffree_only_wf fuel s1 (brk s) fresh Hwf1 Hh1) as (E & _ & _).
    rewrite E. f_equal. destruct Hwf as [_ _ _ [Hhd _] Htl].
    simpl in Hhd, Htl. rewrite Hhd, Htl in Es1. simpl in Es1.
    rewrite Es1. unfold set_brk, set_tail, set_head, set_hdrs. simpl.
    by rewrite Hhd, Htl.
  - pose proof Hwf as [_ _ _ Hseg Htl].
    rewrite last_snoc in Htl. simpl in Htl.
    apply seg_snoc in Hseg as (ht & Hseg & Hht & Hst & Hnt & Het).
    assert (t ≠ NULL) as Htn.
    { apply seg_le in Hseg. unfold NULL. lia. }
    assert (t ≠ brk s) as Htb.
    { unfold HEADER_SIZE in *. lia. }
    assert (head s ≠ NULL) as Hhn.
    { intros E0. apply (wf_head_tail _ _ Hwf) in E0. congruence. }
    destruct (Z.eqb_spec (head s) NULL); [done|].
    rewrite Htl in Es1. destruct (Z.eqb_spec t NULL); [done|].
    assert (hdrs s1 !! t = Some (set_next (brk s) ht)) as Hp.
    { rewrite Es1. simpl. by rewrite lookup_alter_eq, lookup_insert_ne, Hht. }
    rewrite <- app_assoc in Hwf1. simpl in Hwf1.
    destruct (ffree_last_wf fuel s1 l0 t (brk s) fresh _ Hwf1 Hh1 Hp)
      as (E & _).
    { rewrite length_app in Hfuel. simpl in Hfuel. lia. }
    rewrite E. f_equal. rewrite Es1.
    unfold set_brk, set_tail, store, set_hdrs. simpl. f_equal; [done|].
    apply map_eq. intros i. destruct (decide (i = t)) as [->|Hit].
    + rewrite lookup_insert_eq, lookup_insert_ne, Hht by done.
      f_equal. destruct ht. simpl in *. by rewrite Hnt.
    + by rewrite lookup_insert_ne, lookup_alter_ne by done.
Qed.

Lemma no_fit_abc_state sz : no_fit (hdrs abc_state) sz [4096; 4124; 4156].
Proof.
  repeat constructor; intros hy Hy; vm_compute in Hy;
    injection Hy as <-; reflexivity.
Qed.

Lemma grow_then_release_restores_witness :
  wf abc_state [4096; 4124; 4156] ∧
  no_fit (hdrs abc_state) 10 [4096; 4124; 4156] ∧
  ∃ s1, mmalloc 3 10 abc_state = Done (4205, s1) ∧
        ffree 3 4205 s1
        = Done (set_hdrs (<[4181 := {| size := 10; is_free := false;
                                       next := NULL |}]> (hdrs abc_state))
                  abc_state).
Proof.
  split; [exact wf_abc_state|]. split; [exact (no_fit_abc_state 10)|].
  destruct (grow_then_release_restores 3 10 abc_state [4096; 4124; 4156]
              wf_abc_state (no_fit_abc_state 10)) as (s1 & E1 & _ & E2).
  - lia.
  - reflexivity.
  - simpl. unfold HEADER_SIZE. lia.
  - simpl. lia.
  - exists s1. split; [exact E1|exact E2].
Defined.

(** X7. Releasing a live block that is not the last one and then
    asking for at most its size, when no block in front of it fits,
    returns the same pointer and leaves exactly the state from before
    the release. *)
Theorem release_then_allocate_restores (fuel : nat) (sz : Z) (s : state)
    (l1 : list Z) (x : Z) (l2 : list Z) (h : header_t) :
  wf s (l1 ++ x :: l2) → l2 ≠ [] →
  hdrs s !! x = Some h → is_free h = false → 0 < sz <= size h →
  no_fit (hdrs s) sz l1 → (length l1 < fuel)%nat →
  ∃ s1, ffree fuel (payload x) s = Done s1 ∧
        (∃ h1, hdrs s1 !! x = Some h1 ∧ is_free h1 = true) ∧
        mmalloc fuel sz s1 = Done (payload x, s).
Proof.
  intros Hwf Hl2 Hh Hlive Hsz Hno Hfuel.
  assert (x ∈ l1 ++ x :: l2) as Hx by (apply elem_of_app; right; left).
  destruct (wf_addr _ _ _ Hwf Hx) as [Hr Hxn].
  assert (NoDup (l1 ++ x :: l2)) as Hnd.
  { destruct Hwf. by eapply seg_NoDup. }
  assert (x + HEADER_SIZE + size h ≠ brk s) as Hne.
  { intros He. apply (ffree_test_wf _ _ _ _ Hwf Hx Hh) in He as (l0 & El).
    destruct l2 as [|z l2 _] using rev_ind; [done|].
    rewrite app_comm_cons, app_assoc in El.
    apply app_inj_tail in El as [_ ->].
    apply NoDup_app in Hnd as (_ & _ & Hnd).
    apply NoDup_cons in Hnd as [Hnd _]. apply Hnd.
    apply elem_of_app. right. left. }
  exists (store x (set_is_free true h) s).
  split; [by eapply ffree_inner_wf|]. split.
  { eexists. simpl. by rewrite lookup_insert_eq. }
  assert (store x (set_is_free false (set_is_free true h))
            (store x (set_is_free true h) s) = s) as Hback.
  { unfold store, set_hdrs. simpl. rewrite insert_insert_eq.
    assert (set_is_free false (set_is_free true h) = h) as ->.
    { destruct h. simpl in *. by rewrite Hlive. }
    rewrite insert_id by done. by destruct s. }
  rewrite <- Hback at 2.
  pose proof (wf_chain _ _ Hwf) as Hc.
  apply chain_app in Hc as (r & Hc1 & Hc2).
  assert (r = x) as -> by (simpl in Hc2; tauto).
  apply mmalloc_reuse with (l1 := l1).
  - lia.
  - eapply chain_frame; [|exact Hc1]. intros y hy _ Hy. simpl.
    destruct (decide (x = y)) as [->|Hxy].
    + rewrite lookup_insert_eq. rewrite Hh in Hy. injection Hy as <-.
      by eexists.
    + rewrite lookup_insert_ne by done. by eexists.
  - apply Forall_forall. intros y Hy hy Hhy. simpl in Hhy.
    assert (x ≠ y) as Hxy.
    { intros ->. apply NoDup_app in Hnd as (_ & Hnd & _).
      apply (Hnd y Hy). left. }
    rewrite lookup_insert_ne in Hhy by done.
    rewrite Forall_forall in Hno. by eapply Hno.
  - done.
  - simpl. by rewrite lookup_insert_eq.
  - unfold fits. simpl. apply Z.leb_le. lia.
  - done.
Qed.

Lemma release_then_allocate_restores_witness :
  wf abc_state ([4096] ++ 4124 :: [4156]) ∧
  hdrs abc_state !! 4124 = Some {| size := 8; is_free := false; next := 4156 |} ∧
  ∃ s1, ffree 2 (payload 4124) abc_state = Done s1 ∧
        mmalloc 2 7 s1 = Done (payload 4124, abc_state).
Proof.
  split; [exact wf_abc_state|]. split; [reflexivity|].
  destruct (release_then_allocate_restores 2 7 abc_state [4096] 4124 [4156]
              {| size := 8; is_free := false; next := 4156 |} wf_abc_state)
    as (s1 & E1 & _ & E2).
  - discriminate.
  - reflexivity.
  - reflexivity.
  - simpl. lia.
  - repeat constructor. intros hy Hy. vm_compute in Hy.
    injection Hy as <-. reflexivity.
  - simpl. lia.
  - exists s1. split; [exact E1|exact E2].
Defined.

(** X9. Releasing a block that is not the tail a second time changes
    nothing: the second [ffree] returns the state the first one
    left. *)
Theorem second_release_changes_nothing (fuel : nat) (s : state) (l : list Z)
    (x : Z) :
  wf s l → x ∈ l → x ≠ tail s →
  ∃ s1, ffree fuel (payload x) s = Done s1 ∧
        ffree fuel (payload x) s1 = Done s1.
Proof.
  intros Hwf Hx Hnt.
  destruct (wf_block _ _ _ Hwf Hx) as (h & Hh & _).
  assert (x + HEADER_SIZE + size h ≠ brk s) as Hne.
  { intros He. apply (ffree_test_wf _ _ _ _ Hwf Hx Hh) in He as (l0 & ->).
    destruct Hwf. rewrite last_snoc in wf_tail0. by simpl in wf_tail0. }
  set (s1 := store x (set_is_free true h) s).
  assert (wf s1 l) as Hwf1 by by apply wf_store_flag.
  assert (hdrs s1 !! x = Some (set_is_free true h)) as Hh1.
  { simpl. by rewrite lookup_insert_eq. }
  exists s1. split; [by eapply ffree_inner_wf|].
  rewrite (ffree_inner_wf fuel s1 l x _ Hwf1 Hx Hh1); [|done].
  f_equal. unfold s1, store, set_hdrs. simpl. by rewrite insert_insert_eq.
Qed.

Lemma second_release_changes_nothing_witness :
  wf abc_state [4096; 4124; 4156] ∧ 4096 ≠ tail abc_state ∧
  ∃ s1, ffree 0 (payload 4096) abc_state = Done s1 ∧
        ffree 0 (payload 4096) s1 = Done s1.
Proof.
  split; [exact wf_abc_state|]. split; [simpl; lia|].
  apply (second_release_changes_nothing 0 abc_state [4096; 4124; 4156] 4096
           wf_abc_state).
  - apply list_elem_of_here.
  - simpl. lia.
Defined.

(** ** Resize that has to move the block *)

(** Releasing the block at [x] next to another block [xr] of a
    well-formed list: [xr] stays on the list with its size and flag,
    and [x] is afterwards off the list or free. *)
Lemma release_beside fuel s l x xr hr :
  wf s l → x ∈ l → xr ∈ l → xr ≠ x → hdrs s !! xr = Some hr →
  (length l <= fuel)%nat ∨ (∃ l0, l = l0 ++ [xr]) →
  ∃ s3 l3,
    ffree fuel (payload x) s = Done s3 ∧ wf s3 l3 ∧ xr ∈ l3 ∧
    (∃ h3, hdrs s3 !! xr = Some h3 ∧ size h3 = size hr ∧
           is_free h3 = is_free hr) ∧
    (x ∉ l3 ∨ ∃ hx, hdrs s3 !! x = Some hx ∧ is_free hx = true).
Proof.
  intros Hwf Hx Hxr Hne Hhr Hfuel.
  destruct (wf_addr _ _ _ Hwf Hx) as [Hr _].
  destruct (wf_block _ _ _ Hwf Hx) as (h & Hh & _).
  assert (∃ s3 l3, ffree fuel (payload x) s = Done s3 ∧ wf s3 l3 ∧
            ((l3 = l ∧ ∃ hx, hdrs s3 !! x = Some hx ∧ is_free hx = true) ∨
             l = l3 ++ [x])) as (s3 & l3 & E & Hwf3 & Hl3).
  { destruct (decide (x + HEADER_SIZE + size h = brk s)) as [He|Hne'].
    - destruct (ffree_test_wf _ _ _ _ Hwf Hx Hh) as [_ [Hl _]].
      destruct (Hl He) as (l0 & ->).
      destruct Hfuel as [Hfuel|(l0' & El)];
        [|by apply app_inj_tail in El as [_ ->]].
      destruct l0 as [|pred l1 _] using rev_ind.
      + destruct (ffree_only_wf fuel _ _ _ Hwf Hh) as (E & Hwf' & _).
        eexists _, []. split; [exact E|]. split; [done|]. by right.
      + rewrite <- app_assoc in Hwf, Hfuel. simpl in Hwf, Hfuel.
        assert (pred ∈ l1 ++ [pred; x]) as Hp.
        { apply elem_of_app. right. left. }
        destruct (wf_block _ _ _ Hwf Hp) as (hp & Hhp & _).
        destruct (ffree_last_wf fuel _ _ _ _ _ _ Hwf Hh Hhp) as (E & Hwf' & _).
        { rewrite length_app in Hfuel. simpl in Hfuel. lia. }
        eexists _, (l1 ++ [pred]). split; [exact E|]. split; [done|].
        right. by rewrite <- app_assoc.
    - exists (store x (set_is_free true h) s), l.
      split; [by eapply ffree_inner_wf|].
      split; [by apply wf_store_flag|]. left. split; [done|].
      eexists. simpl. by rewrite lookup_insert_eq. }
  exists s3, l3. split; [done|]. split; [done|].
  assert (NoDup l) as Hnd by (destruct Hwf; by eapply seg_NoDup).
  split; [|split].
  - destruct Hl3 as [[-> _]| ->]; [done|].
    apply elem_of_app in Hxr as [?|Hin%list_elem_of_singleton]; done.
  - destruct (ffree_frame _ _ _ _ _ _ E Hhr) as (h3 & Hh3 & Hs3 & Hf3).
    exists h3. split; [done|]. split; [done|]. apply Hf3.
    by rewrite header_of_payload by lia.
  - destruct Hl3 as [[-> Hfree]| ->]; [by right|]. left.
    apply NoDup_app in Hnd as (_ & Hnd & _). intros Hin.
    apply (Hnd x Hin). left.
Qed.

(** A growing [rrealloc] on a well-formed state: what it returns and
    what has become of the two blocks. *)
Lemma rrealloc_moves (fuel : nat) (s : state) (l : list Z) (x : Z)
    (h : header_t) (sz : Z) :
  wf s l → x ∈ l → hdrs s !! x = Some h → is_free h = false →
  size h < sz → HEADER_SIZE + sz < half_modulus → (length l <= fuel)%nat →
  ∃ ret s3,
    rrealloc fuel (payload x) sz s = Done (ret, s3) ∧
    (ret = NULL → s3 = s) ∧
    (ret ≠ NULL →
     ∃ l3 xr hr,
       wf s3 l3 ∧ ret = payload xr ∧ xr ∈ l3 ∧
       hdrs s3 !! xr = Some hr ∧ is_free hr = false ∧ sz <= size hr ∧
       (x ∉ l3 ∨ ∃ hx, hdrs s3 !! x = Some hx ∧ is_free hx = true)).
Proof.
  intros Hwf Hx Hh Hlive Hlt Hfit Hfuel.
  destruct (wf_addr _ _ _ Hwf Hx) as [Hr _].
  destruct (wf_block _ _ _ Hwf Hx) as (h' & Hh' & Hs & _).
  rewrite Hh in Hh'. injection Hh' as <-.
  pose proof (wf_brk_range _ _ Hwf) as Hbr.
  assert (∀ ret s1 l1 xr hr,
            mmalloc fuel sz s = Done (ret, s1) → wf s1 l1 → x ∈ l1 →
            xr ∈ l1 → xr ≠ x → ret = payload xr →
            hdrs s1 !! xr = Some hr → is_free hr = false → sz <= size hr →
            (length l1 <= fuel)%nat ∨ (∃ l0, l1 = l0 ++ [xr]) →
            ∃ s3, rrealloc fuel (payload x) sz s = Done (ret, s3) ∧
                  ∃ l3 hr3,
                    wf s3 l3 ∧ xr ∈ l3 ∧ hdrs s3 !! xr = Some hr3 ∧
                    is_free hr3 = false ∧ sz <= size hr3 ∧
                    (x ∉ l3 ∨ ∃ hx, hdrs s3 !! x = Some hx ∧ is_free hx = true))
    as Hmove.
  { intros ret s1 l1 xr hr E Hwf1 Hx1 Hxr Hne -> Hhr Hfr Hle Hf.
    destruct (wf_addr _ _ _ Hwf1 Hxr) as [Hrr _].
    destruct (wf_block _ _ _ Hwf1 Hx1) as (h1 & Hh1 & _).
    set (s2 := set_bytes (memcpy (Z.to_nat (size h1)) (payload xr) (payload x)
                            (bytes s1)) s1).
    assert (wf s2 l1) as Hwf2 by by apply wf_set_bytes.
    destruct (release_beside fuel s2 l1 x xr hr Hwf2 Hx1 Hxr Hne Hhr Hf)
      as (s3 & l3 & E3 & Hwf3 & Hin3 & (h3 & Hh3 & Hs3 & Hf3) & Hold).
    exists s3. split.
    - unfold rrealloc. rewrite payload_eqb_NULL by lia.
      destruct (Z.eqb_spec sz 0); [lia|]. simpl.
      rewrite header_of_payload by lia.
      rewrite (load_Some _ _ _ Hh), bind_Done.
      destruct (Z.leb_spec sz (size h)); [lia|].
      rewrite E, bind_Done, payload_eqb_NULL by lia. simpl.
      rewrite (load_Some _ _ _ Hh1), bind_Done. fold s2. by rewrite E3.
    - exists l3, h3. split; [done|]. split; [done|]. split; [done|].
      split; [congruence|]. split; [lia|done]. }
  destruct (mmalloc_wf fuel sz s l Hwf) as
    [(_ & _ & E)|[(l1 & y & l2 & hy & -> & _ & Hhy & Hf & E & Hwf1)
                 |(_ & _ & s1 & E & Hwf1 & Hh1 & _)]]; [lia|done..| | |].
  - exists NULL, s. split; [|done].
    unfold rrealloc. rewrite payload_eqb_NULL by lia.
    destruct (Z.eqb_spec sz 0); [lia|]. simpl.
    rewrite header_of_payload by lia.
    rewrite (load_Some _ _ _ Hh), bind_Done.
    destruct (Z.leb_spec sz (size h)); [lia|]. by rewrite E.
  - assert (y ∈ l1 ++ y :: l2) as Hy by (apply elem_of_app; right; left).
    destruct (wf_addr _ _ _ Hwf Hy) as [Hry _].
    apply andb_prop in Hf as [Hfree Hle%Z.leb_le].
    assert (y ≠ x) as Hyx.
    { intros ->. rewrite Hh in Hhy. injection Hhy as <-. congruence. }
    rewrite <- (payload_small y) in E by lia.
    destruct (Hmove _ _ _ y (set_is_free false hy) E Hwf1 Hx Hy Hyx eq_refl)
      as (s3 & E3 & l3 & hr3 & H3); [simpl; by rewrite lookup_insert_eq
                                    |done|done|by left|].
    exists (payload y), s3. split; [done|].
    split; [rewrite payload_small by lia; unfold HEADER_SIZE, NULL; lia|].
    intros _. exists l3, y, hr3. destruct H3 as (? & ? & ? & ? & ? & ?). done.
  - assert (brk s ∈ l ++ [brk s]) as Hb by (apply elem_of_app; right; left).
    assert (x ∈ l ++ [brk s]) as Hx1 by (apply elem_of_app; by left).
    assert (brk s ≠ x) as Hbx.
    { intros E0. destruct Hwf as [_ _ _ Hseg _].
      apply seg_fresh with (b := brk s) in Hseg; [|lia]. by rewrite E0 in Hseg. }
    rewrite <- (payload_small (brk s)) in E by lia.
    destruct (Hmove _ _ _ (brk s) _ E Hwf1 Hx1 Hb Hbx eq_refl Hh1)
      as (s3 & E3 & l3 & hr3 & H3); [done|simpl; lia|right; by eexists|].
    exists (payload (brk s)), s3. split; [done|].
    split; [rewrite payload_small by lia; unfold HEADER_SIZE, NULL; lia|].
    intros _. exists l3, (brk s), hr3.
    destruct H3 as (? & ? & ? & ? & ? & ?). done.
Qed.

(** X12. On a well-formed state, a resize of a live block to more
    than its size (the total not wrapping) always returns.  If it
    returns [NULL] the state is unchanged.  Otherwise the state is
    again well formed, the returned block is a live block of the list
    with at least the requested size, and the old block is no longer a
    live block of the list: it is off the list or free. *)
Theorem resize_moves_block (fuel : nat) (s : state) (l : list Z) (x : Z)
    (h : header_t) (sz : Z) :
  wf s l → x ∈ l → hdrs s !! x = Some h → is_free h = false →
  size h < sz → HEADER_SIZE + sz < half_modulus → (length l <= fuel)%nat →
  ∃ ret s3,
    rrealloc fuel (payload x) sz s = Done (ret, s3) ∧
    (ret = NULL → s3 = s) ∧
    (ret ≠ NULL →
     ∃ l3 xr hr,
       wf s3 l3 ∧ ret = payload xr ∧ xr ∈ l3 ∧
       hdrs s3 !! xr = Some hr ∧ is_free hr = false ∧ sz <= size hr ∧
       (x ∉ l3 ∨ ∃ hx, hdrs s3 !! x = Some hx ∧ is_free hx = true)).
Proof. apply rrealloc_moves. Qed.

Lemma resize_moves_block_witness :
  wf abc_state [4096; 4124; 4156] ∧
  hdrs abc_state !! 4124 = Some {| size := 8; is_free := false; next := 4156 |} ∧
  ∃ ret s3, rrealloc 3 (payload 4124) 10 abc_state = Done (ret, s3) ∧
            (ret = NULL → s3 = abc_state).
Proof.
  split; [exact wf_abc_state|]. split; [reflexivity|].
  destruct (resize_moves_block 3 abc_state [4096; 4124; 4156] 4124
              {| size := 8; is_free := false; next := 4156 |} 10 wf_abc_state)
    as (ret & s3 & E & Hnull & _).
  - apply elem_of_cons. right. apply list_elem_of_here.
  - reflexivity.
  - reflexivity.
  - simpl. lia.
  - reflexivity.
  - simpl. lia.
  - exists ret, s3. split; [exact E|exact Hnull].
Defined.



(** X13. A resize of the last block never extends it in place, though
    it ends at the break.  When no block of the list fits and there is
    room, [rrealloc] appends a new block at the break and returns it;
    the old last block stays on the list, with its size, as a free
    block in front of the new one. *)
Theorem resize_of_tail_leaves_hole (fuel : nat) (s : state) (l0 : list Z)
    (x : Z) (h : header_t) (sz : Z) :
  wf s (l0 ++ [x]) → hdrs s !! x = Some h → is_free h = false →
  size h < sz → no_fit (hdrs s) sz (l0 ++ [x]) →
  HEADER_SIZE + sz < half_modulus → brk s + HEADER_SIZE + sz <= max_brk s →
  (length (l0 ++ [x]) <= fuel)%nat →
  ∃ s3, rrealloc fuel (payload x) sz s = Done (brk s + HEADER_SIZE, s3) ∧
        wf s3 (l0 ++ [x; brk s]) ∧ brk s3 = brk s + HEADER_SIZE + sz ∧
        ∃ h3, hdrs s3 !! x = Some h3 ∧ is_free h3 = true ∧ size h3 = size h.
Proof.
  intros Hwf Hh Hlive Hlt Hno Hfit Hroom Hfuel.
  assert (x ∈ l0 ++ [x]) as Hx by (apply elem_of_app; right; left).
  destruct (wf_addr _ _ _ Hwf Hx) as [Hr _].
  destruct (wf_block _ _ _ Hwf Hx) as (h' & Hh' & Hs & _).
  rewrite Hh in Hh'. injection Hh' as <-.
  pose proof (wf_brk_range _ _ Hwf) as Hbr.
  assert (mmalloc fuel sz s = mmalloc_grow sz s) as Hm.
  { unfold mmalloc, get_free_block.
    rewrite (get_free_block_from_miss _ _ _ _ _ (wf_chain _ _ Hwf) Hno Hfuel).
    by destruct (Z.eqb_spec sz 0); [lia|]. }
  destruct (mmalloc_grow_wf sz s _ Hwf) as
    (s1 & E & Hwf1 & Hh1 & Hb1 & _ & Hframe); [lia|done..|].
  destruct (Hframe x h Hx Hh) as (h1 & Hhx1 & Hs1 & Hf1).
  rewrite <- app_assoc in Hwf1. simpl in Hwf1.
  assert (x ∈ l0 ++ [x; brk s]) as Hx1 by (apply elem_of_app; right; left).
  set (s2 := set_bytes (memcpy (Z.to_nat (size h1)) (brk s + HEADER_SIZE)
                          (payload x) (bytes s1)) s1).
  assert (wf s2 (l0 ++ [x; brk s])) as Hwf2 by by apply wf_set_bytes.
  assert (x + HEADER_SIZE + size h1 ≠ brk s2) as Hne.
  { intros He. apply (ffree_test_wf _ _ _ _ Hwf2 Hx1 Hhx1) in He as (la & El).
    replace (l0 ++ [x; brk s]) with ((l0 ++ [x]) ++ [brk s]) in El
      by by rewrite <- app_assoc.
    apply app_inj_tail in El as [_ E0].
    destruct Hwf as [_ _ _ Hseg _].
    apply seg_fresh with (b := brk s) in Hseg; [|lia]. by rewrite E0 in Hseg. }
  exists (store x (set_is_free true h1) s2). split; [|split; [|split]].
  - unfold rrealloc. rewrite payload_eqb_NULL by lia.
    destruct (Z.eqb_spec sz 0); [lia|]. simpl.
    rewrite header_of_payload by lia.
    rewrite (load_Some _ _ _ Hh), bind_Done.
    destruct (Z.leb_spec sz (size h)); [lia|].
    rewrite Hm, E, bind_Done.
    destruct (Z.eqb_spec (brk s + HEADER_SIZE) NULL) as [E0|_].
    { unfold HEADER_SIZE, NULL in E0. lia. }
    simpl. rewrite (load_Some _ _ _ Hhx1), bind_Done. fold s2.
    by rewrite (ffree_inner_wf fuel s2 _ x h1 Hwf2 Hx1 Hhx1 Hne).
  - by apply wf_store_flag.
  - done.
  - eexists. simpl. rewrite lookup_insert_eq. done.
Qed.

Lemma resize_of_tail_leaves_hole_witness :
  wf abc_state ([4096; 4124] ++ [4156]) ∧
  hdrs abc_state !! 4156 = Some {| size := 1; is_free := false; next := NULL |} ∧
  ∃ s3, rrealloc 3 (payload 4156) 10 abc_state
        = Done (brk abc_state + HEADER_SIZE, s3) ∧
        wf s3 ([4096; 4124] ++ [4156; brk abc_state]).
Proof.
  split; [exact wf_abc_state|]. split; [reflexivity|].
  destruct (resize_of_tail_leaves_hole 3 abc_state [4096; 4124] 4156
              {| size := 1; is_free := false; next := NULL |} 10 wf_abc_state)
    as (s3 & E & Hwf3 & _).
  - reflexivity.
  - reflexivity.
  - simpl. lia.
  - exact (no_fit_abc_state 10).
  - reflexivity.
  - simpl. unfold HEADER_SIZE. lia.
  - simpl. lia.
  - exists s3. split; [exact E|exact Hwf3].
Defined.

(** ** What every run without a wrapping size keeps *)

Lemma wf_a_state : wf a_state [4096].
Proof.
  constructor; [reflexivity|reflexivity|simpl; lia| |reflexivity].
  simpl. unfold HEADER_SIZE.
  repeat split. eexists. split; [reflexivity|]. simpl. split; [lia|]. done.
Qed.

Lemma wf_ab_state : wf ab_state [4096; 4124].
Proof.
  constructor; [reflexivity|reflexivity|simpl; lia| |reflexivity].
  simpl. unfold HEADER_SIZE.
  repeat split. eexists. split; [reflexivity|]. simpl. split; [lia|].
  repeat split. eexists. split; [reflexivity|]. simpl. split; [lia|].
  done.
Qed.

Lemma safe_run_abc_state : safe_run abc_state.
Proof.
  assert (safe_run fresh_process) as H0.
  { apply safe_init; [lia|lia|reflexivity]. }
  assert (safe_run a_state) as H1.
  { apply (safe_step fresh_process [] 3 (Mmalloc 4) 4120 a_state H0).
    - apply wf_init; [lia|lia|reflexivity].
    - simpl. split; [lia|reflexivity].
    - simpl. lia.
    - vm_compute. reflexivity. }
  assert (safe_run ab_state) as H2.
  { apply (safe_step a_state [4096] 3 (Mmalloc 8) 4148 ab_state H1 wf_a_state).
    - simpl. split; [lia|reflexivity].
    - simpl. lia.
    - vm_compute. reflexivity. }
  apply (safe_step ab_state [4096; 4124] 3 (Mmalloc 1) 4180 abc_state H2
           wf_ab_state).
  - simpl. split; [lia|reflexivity].
  - simpl. lia.
  - vm_compute. reflexivity.
Qed.

(** X1. From a state reached without a wrapping size, every call
    whose sizes do not wrap and whose pointer is [NULL] or a block of
    the list returns, given fuel for the length of the list, and the
    state it leaves is again such a state, with a list at most one
    node longer. *)
Theorem valid_calls_return (fuel : nat) (o : op) (s : state) (l : list Z) :
  safe_run s → wf s l → valid_op l o → (length l <= fuel)%nat →
  ∃ p s' l', step fuel o s = Done (p, s') ∧ safe_run s' ∧ wf s' l' ∧
             (length l' <= S (length l))%nat.
Proof.
  intros Hs Hwf Hv Hfuel.
  destruct (step_keeps_wf fuel o s l Hwf Hv Hfuel)
    as (p & s' & l' & E & Hwf' & Hlen).
  exists p, s', l'. split; [done|]. split; [|done].
  by eapply safe_step.
Qed.

Lemma valid_calls_return_witness :
  safe_run abc_state ∧ wf abc_state [4096; 4124; 4156] ∧
  valid_op [4096; 4124; 4156] (Rrealloc (payload 4156) 10) ∧
  ∃ p s', step 3 (Rrealloc (payload 4156) 10) abc_state = Done (p, s') ∧
          safe_run s'.
Proof.
  assert (valid_op [4096; 4124; 4156] (Rrealloc (payload 4156) 10)) as Hv.
  { simpl. split; [lia|]. split; [reflexivity|]. right. exists 4156.
    split; [|reflexivity].
    apply elem_of_cons. right. apply elem_of_cons. right.
    apply list_elem_of_here. }
  split; [exact safe_run_abc_state|]. split; [exact wf_abc_state|].
  split; [exact Hv|].
  destruct (valid_calls_return 3 (Rrealloc (payload 4156) 10) abc_state
              [4096; 4124; 4156] safe_run_abc_state wf_abc_state Hv)
    as (p & s' & l' & E & Hs' & _).
  - simpl. lia.
  - exists p, s'. split; [exact E|exact Hs'].
Defined.

(** X2. In every state reached without a wrapping size the block list
    is finite and free of cycles, [tail] is its last node and has no
    successor, and [head] is [NULL] exactly when [tail] is. *)
Theorem safe_runs_keep_the_list (s : state) :
  safe_run s →
  ∃ l, chain (hdrs s) (head s) l NULL ∧ NoDup l ∧
       tail s = default NULL (last l) ∧
       (tail s ≠ NULL → ∃ h, hdrs s !! tail s = Some h ∧ next h = NULL) ∧
       (head s = NULL ↔ tail s = NULL).
Proof.
  intros Hs. destruct (safe_run_wf s Hs) as [l Hwf].
  exists l. by apply wf_list_shape.
Qed.

Lemma safe_runs_keep_the_list_witness :
  safe_run abc_state ∧
  ∃ l, chain (hdrs abc_state) (head abc_state) l NULL ∧ NoDup l ∧
       tail abc_state = default NULL (last l).
Proof.
  split; [exact safe_run_abc_state|].
  destruct (safe_runs_keep_the_list abc_state safe_run_abc_state)
    as (l & Hc & Hnd & Ht & _).
  exists l. split; [exact Hc|]. split; [exact Hnd|exact Ht].
Defined.

(** X3. In every state reached without a wrapping size the break lies
    between its initial value and the host's limit, and it is back at
    its initial value whenever the list is empty; every block of the
    list lies inside the arena, different blocks do not overlap, and
    the test of [ffree] holds for the tail only. *)
Theorem safe_runs_tile_the_arena (s : state) :
  safe_run s →
  min_brk s <= brk s <= max_brk s ∧
  (head s = NULL → brk s = min_brk s) ∧
  ∃ l, chain (hdrs s) (head s) l NULL ∧
       ∀ x h, x ∈ l → hdrs s !! x = Some h →
         in_arena s (payload x) (size h) ∧
         (wrap (payload x + size h) = brk s → x = tail s) ∧
         ∀ y hy, y ∈ l → y ≠ x → hdrs s !! y = Some hy →
           disjoint_regions (payload x) (size h) (payload y) (size hy).
Proof.
  intros Hs. destruct (safe_run_wf s Hs) as [l Hwf].
  pose proof (wf_brk_range _ _ Hwf) as Hbr.
  split; [destruct Hwf; lia|]. split.
  - intros Hnull. destruct Hwf as [_ _ _ Hseg _].
    destruct l as [|y l]; simpl in Hseg; [by destruct Hseg as [_ ->]|].
    destruct Hseg as (E & <- & _). unfold NULL in *. lia.
  - exists l. split; [by apply wf_chain|]. intros x h Hx Hh.
    destruct (wf_payloads _ _ _ _ Hwf Hx Hh) as [Hin Hdis].
    split; [done|]. split; [|done].
    by apply (proj2 (wf_tail_ends_arena s l Hwf)).
Qed.

Lemma safe_runs_tile_the_arena_witness :
  safe_run abc_state ∧
  min_brk abc_state <= brk abc_state <= max_brk abc_state.
Proof.
  split; [exact safe_run_abc_state|].
  exact (proj1 (safe_runs_tile_the_arena abc_state safe_run_abc_state)).
Defined.

Lemma mmalloc_safe_witness :
  wf abc_state [4096; 4124; 4156] ∧ 0 < 10 ∧
  ∃ s', mmalloc 3 10 abc_state = Done (4205, s') ∧ 4205 ≠ NULL ∧
        ∃ l' x h, wf s' l' ∧ x ∈ l' ∧ 4205 = payload x ∧
                  hdrs s' !! x = Some h ∧ 10 <= size h ∧
                  in_arena s' 4205 (size h).
Proof.
  split; [exact wf_abc_state|]. split; [lia|].
  assert (∃ s', mmalloc 3 10 abc_state = Done (4205, s')) as [s' E].
  { eexists. vm_compute. reflexivity. }
  assert (4205 ≠ NULL) as Hne by (unfold NULL; lia).
  exists s'. split; [exact E|]. split; [exact Hne|].
  destruct (mmalloc_safe 3 10 abc_state [4096; 4124; 4156] 4205 s'
              wf_abc_state) as (l' & x & h & Hwf' & Hx & Hp & Hh & _ & Hle & Hin & _).
  - lia.
  - reflexivity.
  - simpl. lia.
  - exact E.
  - exact Hne.
  - exists l', x, h. done.
Defined.

(** ** The dump *)

Lemma print_mem_list_from_chain fuel m p l :
  chain m p l NULL → (length l <= fuel)%nat →
  ∃ lines, print_mem_list_from fuel m p = Done lines ∧
           Forall2 (line_of m) l lines.
Proof.
  revert p fuel. induction l as [|x l IH]; intros p fuel; simpl.
  - intros -> _. exists []. split; [by destruct fuel|constructor].
  - intros (-> & Hx & h & Hh & Hc) Hfuel.
    destruct fuel as [|fuel]; [lia|]. simpl.
    destruct (Z.eqb_spec x NULL); [done|]. rewrite Hh.
    destruct (IH _ fuel Hc) as (lines & E & Hall); [lia|].
    rewrite E, bind_Done. eexists. split; [done|].
    constructor; [by exists h|done].
Qed.

(** X14. On a list that ends at [NULL], [print_mem_list] returns after
    the head/tail line and one line per node, in list order; each line
    shows the address, size, flag and successor of its header. *)
Theorem dump_lists_blocks_in_order (fuel : nat) (s : state) (l : list Z) :
  chain (hdrs s) (head s) l NULL → (length l <= fuel)%nat →
  ∃ lines, print_mem_list fuel s
           = Done (HeadTail (head s) (tail s) :: lines) ∧
           Forall2 (line_of (hdrs s)) l lines.
Proof.
  intros Hc Hfuel. unfold print_mem_list.
  destruct (print_mem_list_from_chain fuel _ _ _ Hc Hfuel) as (lines & E & Hall).
  exists lines. by rewrite E.
Qed.

Lemma dump_lists_blocks_in_order_witness :
  chain (hdrs abc_state) (head abc_state) [4096; 4124; 4156] NULL ∧
  ∃ lines, print_mem_list 3 abc_state = Done (HeadTail 4096 4156 :: lines) ∧
           Forall2 (line_of (hdrs abc_state)) [4096; 4124; 4156] lines.
Proof.
  split; [exact chain_abc_state|].
  apply (dump_lists_blocks_in_order 3 abc_state [4096; 4124; 4156]
           chain_abc_state).
  simpl. lia.
Defined.

(** On a well-formed state [ffree] of a block of the list either marks
    it free, when it is not the tail, or takes it, the tail, off the
    list. *)
Lemma ffree_wf_cases fuel s l x :
  wf s l → x ∈ l → (length l <= fuel)%nat →
  ∃ s3 l3,
    ffree fuel (payload x) s = Done s3 ∧ wf s3 l3 ∧
    ((l3 = l ∧ x ≠ tail s ∧ ∃ hx, hdrs s3 !! x = Some hx ∧ is_free hx = true) ∨
     (l = l3 ++ [x] ∧ x = tail s)).
Proof.
  intros Hwf Hx Hfuel.
  destruct (wf_block _ _ _ Hwf Hx) as (h & Hh & _).
  destruct (ffree_test_wf _ _ _ _ Hwf Hx Hh) as [_ Hl].
  destruct (decide (x + HEADER_SIZE + size h = brk s)) as [He|Hne'].
  - destruct (proj1 Hl He) as (l0 & ->).
    assert (x = tail s) as Ht.
    { destruct Hwf. by rewrite wf_tail0, last_snoc. }
    destruct l0 as [|pred l1 _] using rev_ind.
    + destruct (ffree_only_wf fuel _ _ _ Hwf Hh) as (E & Hwf' & _).
      eexists _, []. split; [exact E|]. split; [done|]. by right.
    + rewrite <- app_assoc in Hwf, Hfuel. simpl in Hwf, Hfuel.
      assert (pred ∈ l1 ++ [pred; x]) as Hp.
      { apply elem_of_app. right. left. }
      destruct (wf_block _ _ _ Hwf Hp) as (hp & Hhp & _).
      destruct (ffree_last_wf fuel _ _ _ _ _ _ Hwf Hh Hhp) as (E & Hwf' & _).
      { rewrite length_app in Hfuel. simpl in Hfuel. lia. }
      eexists _, (l1 ++ [pred]). split; [exact E|]. split; [done|].
      right. by rewrite <- app_assoc.
  - exists (store x (set_is_free true h) s), l.
    split; [by eapply ffree_inner_wf|].
    split; [by apply wf_store_flag|]. left. split; [done|]. split.
    + intros Ht. apply Hne'. apply Hl.
      destruct Hwf. destruct l as [|t l0 _] using rev_ind;
        [by apply elem_of_nil in Hx|].
      rewrite last_snoc in wf_tail0. simpl in wf_tail0.
      exists l0. congruence.
    + eexists. simpl. by rewrite lookup_insert_eq.
Qed.

(** X15. After [ffree] of a block of a well-formed list the dump
    shows it: if the block was the tail, the dump lists the old nodes
    without it; otherwise it lists the same nodes and the line of the
    block says free. *)
Theorem dump_after_release (fuel : nat) (s : state) (l : list Z) (x : Z) :
  wf s l → x ∈ l → (length l <= fuel)%nat →
  ∃ s' lines,
    ffree fuel (payload x) s = Done s' ∧
    print_mem_list fuel s' = Done (HeadTail (head s') (tail s') :: lines) ∧
    (x = tail s →
     ∃ l0, l = l0 ++ [x] ∧ (x ∉ l0) ∧ Forall2 (line_of (hdrs s')) l0 lines) ∧
    (x ≠ tail s →
     Forall2 (line_of (hdrs s')) l lines ∧
     ∃ hx, hdrs s' !! x = Some hx ∧ is_free hx = true).
Proof.
  intros Hwf Hx Hfuel.
  assert (NoDup l) as Hnd by (destruct Hwf; by eapply seg_NoDup).
  destruct (ffree_wf_cases fuel s l x Hwf Hx Hfuel)
    as (s3 & l3 & E & Hwf3 & Hcases).
  assert ((length l3 <= fuel)%nat) as Hfuel3.
  { destruct Hcases as [(-> & _)|(-> & _)]; [done|].
    rewrite length_app in Hfuel. lia. }
  destruct (print_mem_list_from_chain fuel _ _ _ (wf_chain _ _ Hwf3) Hfuel3)
    as (lines & Ep & Hall).
  exists s3, lines. split; [done|]. split.
  { unfold print_mem_list. by rewrite Ep. }
  destruct Hcases as [(-> & Hnt & Hfree)|(-> & Ht)].
  - split; [done|]. done.
  - split; [|done]. intros _. exists l3. split; [done|]. split; [|done].
    apply NoDup_app in Hnd as (_ & Hnd & _). intros Hin.
    apply (Hnd x Hin). left.
Qed.

Lemma dump_after_release_witness :
  wf abc_state [4096; 4124; 4156] ∧
  ∃ s' lines,
    ffree 3 (payload 4156) abc_state = Done s' ∧
    print_mem_list 3 s' = Done (HeadTail (head s') (tail s') :: lines).
Proof.
  split; [exact wf_abc_state|].
  destruct (dump_after_release 3 abc_state [4096; 4124; 4156] 4156
              wf_abc_state) as (s' & lines & E & Ep & _).
  - apply elem_of_cons. right. apply elem_of_cons. right.
    apply list_elem_of_here.
  - simpl. lia.
  - exists s', lines. split; [exact E|exact Ep].
Defined.

Lemma print_mem_list_from_spins (S : list Z) m :
  (∀ y, y ∈ S → y ≠ NULL ∧ ∃ h, m !! y = Some h ∧ next h ∈ S) →
  ∀ fuel y, y ∈ S → print_mem_list_from fuel m y = Timeout.
Proof.
  intros Hclosed fuel. induction fuel as [|fuel IH]; intros y Hy;
    destruct (Hclosed y Hy) as (Hne & h & Hh & Hn); simpl;
    (destruct (Z.eqb_spec y NULL); [done|]); [done|].
  by rewrite Hh, (IH _ Hn).
Qed.

Lemma get_free_block_from_spins (S : list Z) m sz :
  (∀ y, y ∈ S → y ≠ NULL ∧ ∃ h, m !! y = Some h ∧ next h ∈ S) →
  no_fit m sz S →
  ∀ fuel y, y ∈ S → get_free_block_from fuel m y sz = Timeout.
Proof.
  intros Hclosed Hno fuel. induction fuel as [|fuel IH]; intros y Hy;
    destruct (Hclosed y Hy) as (Hne & h & Hh & Hn); simpl;
    (destruct (Z.eqb_spec y NULL); [done|]); [done|].
  rewrite Forall_forall in Hno. by rewrite Hh, (Hno y Hy h Hh), (IH _ Hn).
Qed.

(** X16. When the nodes reachable from [head] never lead to [NULL]
    (the list has a cycle), the walks never end: [print_mem_list] runs
    out of every amount of fuel, and so do [get_free_block] and a
    non-zero [mmalloc] for a size that no node on the way fits. *)
Theorem walks_never_end_on_a_cycle (s : state) (S : list Z) :
  (∀ y, y ∈ S → y ≠ NULL ∧ ∃ h, hdrs s !! y = Some h ∧ next h ∈ S) →
  head s ∈ S →
  (∀ fuel, print_mem_list fuel s = Timeout) ∧
  (∀ fuel sz, no_fit (hdrs s) sz S →
     get_free_block fuel sz s = Timeout ∧
     (sz ≠ 0 → mmalloc fuel sz s = Timeout)).
Proof.
  intros Hclosed Hhead. split.
  - intros fuel. unfold print_mem_list.
    by rewrite (print_mem_list_from_spins S _ Hclosed fuel _ Hhead).
  - intros fuel sz Hno.
    assert (get_free_block fuel sz s = Timeout) as E.
    { unfold get_free_block.
      by apply (get_free_block_from_spins S _ sz Hclosed Hno fuel). }
    split; [done|]. intros Hsz. unfold mmalloc.
    destruct (Z.eqb_spec sz 0); [done|]. by rewrite E.
Qed.

Lemma walks_never_end_on_a_cycle_witness :
  head cyclic_state ∈ [4096; 4128] ∧
  (∀ fuel, print_mem_list fuel cyclic_state = Timeout).
Proof.
  assert (head cyclic_state ∈ [4096; 4128]) as Hhead.
  { apply list_elem_of_here. }
  split; [exact Hhead|].
  refine (proj1 (walks_never_end_on_a_cycle cyclic_state [4096; 4128] _ Hhead)).
  intros y Hy.
  apply elem_of_cons in Hy as [->|Hy].
  - split; [unfold NULL; lia|]. eexists. split; [reflexivity|].
    simpl. apply elem_of_cons. right. apply list_elem_of_here.
  - apply elem_of_cons in Hy as [->|Hy].
    + split; [unfold NULL; lia|]. eexists. split; [reflexivity|].
      simpl. apply elem_of_cons. right. apply list_elem_of_here.
    + exfalso. apply elem_of_nil in Hy. exact Hy.
Defined.

(** ** Accounting *)

Lemma seg_extents m p a l q e : seg m p a l q e → e - a = extents m l.
Proof.
  revert p a. induction l as [|x l IH]; intros p a; simpl.
  - intros (_ & ->). lia.
  - intros (-> & -> & h & Hh & Hs & Hseg). apply IH in Hseg.
    unfold extent. rewrite Hh. lia.
Qed.

(** X17. In every state reached without a wrapping size the arena
    holds the blocks of the list and nothing else: the distance from
    the initial break to the current one is the sum, over the list, of
    header size plus block size. *)
Theorem arena_is_sum_of_blocks (s : state) :
  safe_run s →
  ∃ l, chain (hdrs s) (head s) l NULL ∧
       brk s - min_brk s = extents (hdrs s) l.
Proof.
  intros Hs. destruct (safe_run_wf s Hs) as [l Hwf].
  exists l. split; [by apply wf_chain|].
  destruct Hwf. by eapply seg_extents.
Qed.

Lemma arena_is_sum_of_blocks_witness :
  safe_run abc_state ∧
  ∃ l, chain (hdrs abc_state) (head abc_state) l NULL ∧
       brk abc_state - min_brk abc_state = extents (hdrs abc_state) l.
Proof.
  split; [exact safe_run_abc_state|].
  exact (arena_is_sum_of_blocks abc_state safe_run_abc_state).
Defined.

(** X18. Releasing the live last block and then asking for its size
    again, when no block in front of it fits, returns the same pointer
    and leaves exactly the state from before the release: the memory
    given back to the host is taken again at the same address. *)
Theorem release_tail_then_allocate_restores (fuel : nat) (s : state)
    (l0 : list Z) (x : Z) (h : header_t) :
  wf s (l0 ++ [x]) → hdrs s !! x = Some h → is_free h = false →
  no_fit (hdrs s) (size h) l0 → (length (l0 ++ [x]) <= fuel)%nat →
  ∃ s1, ffree fuel (payload x) s = Done s1 ∧
        brk s1 = x ∧
        mmalloc fuel (size h) s1 = Done (payload x, s).
Proof.
  intros Hwf Hh Hlive Hno Hfuel.
  assert (x ∈ l0 ++ [x]) as Hx by (apply elem_of_app; right; left).
  destruct (wf_addr _ _ _ Hwf Hx) as [Hr Hxn].
  destruct (wf_block _ _ _ Hwf Hx) as (h' & Hh' & Hs & Hlo & Hhi).
  rewrite Hh in Hh'. injection Hh' as <-.
  pose proof (wf_brk_range _ _ Hwf) as Hbr.
  pose proof Hwf as [_ Hmax Hbm Hseg Htl].
  rewrite last_snoc in Htl. simpl in Htl.
  apply seg_snoc in Hseg as (hx & Hseg & Hhx & _ & Hnx & Hex).
  rewrite Hh in Hhx. injection Hhx as <-.
  assert (h = {| size := size h; is_free := false; next := NULL |}) as Hheq.
  { destruct h. simpl in *. by rewrite Hlive, Hnx. }
  assert (HEADER_SIZE + size h < half_modulus) as Hfit.
  { unfold HEADER_SIZE in *. lia. }
  assert (∀ s1 l1, wf s1 l1 → brk s1 = x → max_brk s1 = max_brk s →
            no_fit (hdrs s1) (size h) l1 → (length l1 <= fuel)%nat →
            ∃ b s1',
              sbrk (wrap (HEADER_SIZE + size h)) s1 = (x, s1') ∧
              min_brk s1' = min_brk s1 ∧ max_brk s1' = max_brk s1 ∧
              brk s1' = brk s ∧ b = x ∧ x ≠ SBRK_FAILED ∧
              mmalloc fuel (size h) s1 = mmalloc_grow (size h) s1)
    as Hgrow.
  { intros s1 l1 Hwf1 Hb1 Hm1 Hno1 Hfuel1.
    exists x, (set_brk (brk s1 + (HEADER_SIZE + size h)) s1).
    pose proof (wf_brk_range _ _ Hwf1) as Hbr1.
    split.
    { rewrite wrap_small, <- Hb1.
      - apply sbrk_grow; unfold HEADER_SIZE in *; lia.
      - unfold HEADER_SIZE in *. rewrite modulus_eq, half_modulus_eq in *. lia. }
    simpl. split; [done|]. split; [done|]. split; [lia|]. split; [done|].
    split.
    { unfold SBRK_FAILED. rewrite modulus_eq, half_modulus_eq in *. lia. }
    unfold mmalloc, get_free_block.
    rewrite (get_free_block_from_miss _ _ _ _ _ (wf_chain _ _ Hwf1) Hno1 Hfuel1).
    by destruct (Z.eqb_spec (size h) 0); [lia|]. }
  destruct l0 as [|pred l1 _] using rev_ind.
  - simpl in Hwf.
    destruct (ffree_only_wf fuel s x h Hwf Hh) as (E & Hwf1 & _).
    eexists. split; [exact E|]. split; [done|].
    destruct (Hgrow _ [] Hwf1) as (b & s1' & Es & Hmin & Hmx & Hb & _ & Hnf & Em);
      [done|done|constructor|simpl; lia|].
    rewrite Em.
    rewrite (mmalloc_grow_ok _ _ _ _ Es Hnf); [|simpl; done].
    rewrite payload_small by lia. simpl. do 2 f_equal.
    simpl in Hseg. destruct Hseg as [Hhd _].
    rewrite Hmin, Hmx, Hb. simpl.
    rewrite <- Hheq, insert_id by done.
    destruct s. simpl in *. by rewrite Hhd, Htl.
  - rewrite <- app_assoc in Hwf, Hfuel. simpl in Hwf, Hfuel.
    assert (pred ∈ l1 ++ [pred; x]) as Hp by (apply elem_of_app; right; left).
    destruct (wf_block _ _ _ Hwf Hp) as (hp & Hhp & _).
    destruct (ffree_last_wf fuel s l1 pred x h hp Hwf Hh Hhp)
      as (E & Hwf1 & Hnp & Hne & _ & _).
    { rewrite length_app in Hfuel. simpl in Hfuel. lia. }
    eexists. split; [exact E|]. split; [done|].
    assert (pred ≠ x) as Hpx.
    { apply seg_snoc in Hseg as (? & _ & ? & ? & _ & ?).
      unfold HEADER_SIZE in *. lia. }
    assert (NoDup (l1 ++ [pred])) as Hnd by by eapply seg_NoDup.
    destruct (Hgrow _ (l1 ++ [pred]) Hwf1)
      as (b & s1' & Es & Hmin & Hmx & Hb & _ & Hnf & Em); [done|done| | |].
    { apply Forall_forall. intros y Hy hy Hhy. simpl in Hhy.
      rewrite Forall_forall in Hno.
      destruct (decide (pred = y)) as [<-|Hny].
      - rewrite lookup_insert_eq in Hhy. injection Hhy as <-.
        by apply (Hno pred Hy hp).
      - rewrite lookup_insert_ne in Hhy by done. by apply (Hno y Hy). }
    { rewrite !length_app in *. simpl in *. lia. }
    rewrite Em.
    rewrite (mmalloc_grow_ok _ _ _ _ Es Hnf);
      [|simpl; intros _; by rewrite lookup_insert_eq].
    rewrite payload_small by lia. simpl. do 2 f_equal.
    assert (head s ≠ NULL) as Hhn.
    { intros E0. apply (wf_head_tail _ _ Hwf) in E0. congruence. }
    assert (pred ≠ NULL) as Hpn.
    { destruct (wf_addr _ _ _ Hwf Hp) as [_ ?]. done. }
    destruct (Z.eqb_spec (head s) NULL); [done|].
    destruct (Z.eqb_spec pred NULL); [done|].
    rewrite Hmin, Hmx, Hb. simpl.
    assert (alter (set_next x) pred
              (<[x := {| size := size h; is_free := false; next := NULL |}]>
                 (<[pred := set_next NULL hp]> (hdrs s))) = hdrs s) as ->.
    { apply map_eq. intros i. destruct (decide (i = pred)) as [->|Hip].
      - rewrite lookup_alter_eq, lookup_insert_ne, lookup_insert_eq by done.
        rewrite Hhp. simpl. f_equal. destruct hp. simpl in *. by rewrite Hnp.
      - rewrite lookup_alter_ne by done.
        destruct (decide (i = x)) as [->|Hix].
        + by rewrite lookup_insert_eq, <- Hheq.
        + by rewrite !lookup_insert_ne by done. }
    destruct s. simpl in *. by rewrite Htl.
Qed.

Lemma release_tail_then_allocate_restores_witness :
  wf abc_state ([4096; 4124] ++ [4156]) ∧
  hdrs abc_state !! 4156 = Some {| size := 1; is_free := false; next := NULL |} ∧
  ∃ s1, ffree 3 (payload 4156) abc_state = Done s1 ∧ brk s1 = 4156 ∧
        mmalloc 3 1 s1 = Done (payload 4156, abc_state).
Proof.
  split; [exact wf_abc_state|]. split; [reflexivity|].
  apply (release_tail_then_allocate_restores 3 abc_state [4096; 4124] 4156
           {| size := 1; is_free := false; next := NULL |} wf_abc_state).
  - reflexivity.
  - reflexivity.
  - repeat constructor; intros hy Hy; vm_compute in Hy;
      injection Hy as <-; reflexivity.
  - simpl. lia.
Defined.
